(** * Sathi: wake-phrase scoring, intent classification and speech dispatch

    A shallow embedding of the Python sources
      core/main.py, core/calendar_and_clock.py, core/tts_output.py,
      core/llm_gemma.py, core/voice_input.py, core/task_manager.py,
      core/task_scheduler.py
    together with the properties the specification states about them.

    Conventions of the embedding.
    - A Python [str] is a [list ascii], one element per code point; the
      embedding covers the strings whose code points lie below 256.
      String literals of the sources are written with [lit "..."].
    - A Python [float] is a binary64 [float] of the kernel, so scores and
      thresholds are compared exactly as CPython compares them.
    - Python integers are [Z].
    - A [dict] is a [gmap].
    - A call that may raise returns an [exn]; code with effects runs in
      the monad [M], which records the calls made to the speech engine,
      the microphone, the recognizer and the remote model.
    - What the outside world delivers (the clock, the installed voices,
      the recognized text, the answer of the remote model) is a
      parameter of the function that reads it. *)

From Stdlib Require Import ZArith List Ascii String Bool Lia DecimalString.
From Stdlib Require Import Floats.PrimFloat Numbers.Cyclic.Int63.Uint63.
From stdpp Require Import base option list strings gmap sorting.

Set Warnings "-inexact-float".
Local Open Scope Z_scope.

(** ** Python strings *)

Module PyStr.

Definition str := list ascii.

Definition lit (s : string) : str := list_ascii_of_string s.

Definition code (c : ascii) : Z := Z.of_N (N_of_ascii c).

Definition between (lo hi : Z) (c : ascii) : bool :=
  (lo <=? code c) && (code c <=? hi).

Definition eqb (a b : str) : bool := bool_decide (a = b).

(** [not s]: the empty string is the only falsy string. *)
Definition falsy (s : str) : bool :=
  match s with [] => true | _ => false end.

(** [str.isspace] on one code point below 256: tab, newline, vertical tab,
    form feed, carriage return, the separators 0x1c-0x1f, space, NEL and
    the no-break space.  The same set is the class `\s` of [re] on a
    [str] pattern, and what [strip] and [split] treat as white space. *)
Definition isspace (c : ascii) : bool :=
  between 9 13 c || between 28 32 c
  || (code c =? 133) || (code c =? 160).

(** [str.lower] on one code point below 256: the ASCII capitals and the
    Latin-1 capitals 0xc0-0xde (the multiplication sign 0xd7 apart) move
    up by 32; nothing else changes. *)
Definition lower_char (c : ascii) : ascii :=
  if between 65 90 c || (between 192 222 c && negb (code c =? 215))
  then ascii_of_N (Z.to_N (code c + 32))
  else c.

Definition lower (s : str) : str := map lower_char s.

(** [s.lstrip()]. *)
Fixpoint lstrip (s : str) : str :=
  match s with
  | [] => []
  | c :: r => if isspace c then lstrip r else s
  end.

(** [s.rstrip()]: a white-space character is dropped exactly when
    nothing but white space follows it. *)
Fixpoint rstrip (s : str) : str :=
  match s with
  | [] => []
  | c :: r =>
      match rstrip r with
      | [] => if isspace c then [] else [c]
      | r' => c :: r'
      end
  end.

(** [s.strip()]. *)
Definition strip (s : str) : str := rstrip (lstrip s).

(** [s.split()]: the maximal runs of characters that are not white
    space, in order. *)
Fixpoint split (s : str) : list str :=
  match s with
  | [] => []
  | c :: r =>
      if isspace c then split r
      else match r with
           | [] => [[c]]
           | d :: _ =>
               if isspace d then [c] :: split r
               else match split r with
                    | t :: ts => (c :: t) :: ts
                    | [] => [[c]]
                    end
           end
  end.

(** [sep.join(parts)]. *)
Fixpoint join (sep : str) (parts : list str) : str :=
  match parts with
  | [] => []
  | [t] => t
  | t :: ts => t ++ sep ++ join sep ts
  end.

Fixpoint startswith (p s : str) : bool :=
  match p, s with
  | [], _ => true
  | _ :: _, [] => false
  | x :: p', y :: s' => bool_decide (x = y) && startswith p' s'
  end.

(** [p in s] for strings: [p] occurs as a contiguous run of [s]. *)
Fixpoint contains (p s : str) : bool :=
  startswith p s ||
  match s with
  | [] => false
  | _ :: s' => contains p s'
  end.

(** [t in tokens] for a list of strings. *)
Definition mem (t : str) (l : list str) : bool := existsb (eqb t) l.

(** [parts[i:j]] for [0 <= i]. *)
Definition slice {A} (l : list A) (i j : Z) : list A :=
  take (Z.to_nat (j - i)) (drop (Z.to_nat i) l).

Definition newline : str := ["010"%char].

(** [str(n)] for an integer. *)
Definition of_Z (n : Z) : str := lit (NilZero.string_of_int (Z.to_int n)).

End PyStr.

Import PyStr.

(** ** [difflib.SequenceMatcher]

    The standard-library class the wake scorer calls, as CPython defines
    it, for [SequenceMatcher(None, a, b)]: no junk predicate, [autojunk]
    left at its default. *)

Module Difflib.

Record Match := mkMatch { m_a : Z; m_b : Z; m_size : Z }.

(** [__chain_b]: for every element of [b] the increasing list of its
    positions. *)
Fixpoint chain_from (i : Z) (b : str) (b2j : gmap ascii (list Z))
  : gmap ascii (list Z) :=
  match b with
  | [] => b2j
  | elt :: r => chain_from (i + 1) r (<[elt := default [] (b2j !! elt) ++ [i]]> b2j)
  end.

(** With [autojunk] and at least 200 elements, the elements that occur
    more than [n // 100 + 1] times are deleted from [b2j]. *)
Definition chain_b (b : str) : gmap ascii (list Z) :=
  let b2j := chain_from 0 b ∅ in
  let n := Z.of_nat (length b) in
  if 200 <=? n
  then filter (λ kv, Z.of_nat (length kv.2) ≤ n / 100 + 1) b2j
  else b2j.

(** [isjunk] is [None], so [bjunk] stays empty. *)
Definition isbjunk (c : ascii) : bool := false.

Definition at_ (s : str) (i : Z) : option ascii := s !! Z.to_nat i.

(** The inner loop of [find_longest_match] over the positions [j] of
    [a[i]] in [b]. *)
Fixpoint scan_js (i blo bhi : Z) (js : list Z) (j2len newj2len : gmap Z Z)
    (best : Match) : gmap Z Z * Match :=
  match js with
  | [] => (newj2len, best)
  | j :: js' =>
      if j <? blo then scan_js i blo bhi js' j2len newj2len best
      else if bhi <=? j then (newj2len, best)
      else
        let k := default 0 (j2len !! (j - 1)) + 1 in
        let best' := if m_size best <? k
                     then mkMatch (i - k + 1) (j - k + 1) k else best in
        scan_js i blo bhi js' j2len (<[j := k]> newj2len) best'
  end.

(** The outer loop, [for i in range(alo, ahi)]. *)
Fixpoint scan_is (a : str) (b2j : gmap ascii (list Z)) (blo bhi : Z)
    (range : list Z) (j2len : gmap Z Z) (best : Match) : Match :=
  match range with
  | [] => best
  | i :: range' =>
      let js := from_option (λ c, default [] (b2j !! c)) [] (at_ a i) in
      let '(newj2len, best') := scan_js i blo bhi js j2len ∅ best in
      scan_is a b2j blo bhi range' newj2len best'
  end.

(** [while besti > alo and bestj > blo and (isbjunk(b[bestj-1]) is junk)
    and a[besti-1] == b[bestj-1]]; [n] counts [besti - alo] down. *)
Fixpoint extend_left (junk : bool) (a b : str) (blo : Z) (n : nat) (m : Match)
  : Match :=
  match n with
  | O => m
  | S n' =>
      match at_ a (m_a m - 1), at_ b (m_b m - 1) with
      | Some x, Some y =>
          if (blo <? m_b m) && Bool.eqb (isbjunk y) junk && bool_decide (x = y)
          then extend_left junk a b blo n'
                 (mkMatch (m_a m - 1) (m_b m - 1) (m_size m + 1))
          else m
      | _, _ => m
      end
  end.

(** [while besti+bestsize < ahi and bestj+bestsize < bhi and ...];
    [n] counts [ahi - (besti + bestsize)] down. *)
Fixpoint extend_right (junk : bool) (a b : str) (bhi : Z) (n : nat) (m : Match)
  : Match :=
  match n with
  | O => m
  | S n' =>
      match at_ a (m_a m + m_size m), at_ b (m_b m + m_size m) with
      | Some x, Some y =>
          if (m_b m + m_size m <? bhi) && Bool.eqb (isbjunk y) junk
             && bool_decide (x = y)
          then extend_right junk a b bhi n' (mkMatch (m_a m) (m_b m) (m_size m + 1))
          else m
      | _, _ => m
      end
  end.

Definition find_longest_match (a b : str) (b2j : gmap ascii (list Z))
    (alo ahi blo bhi : Z) : Match :=
  let m0 := scan_is a b2j blo bhi (seqZ alo (ahi - alo)) ∅ (mkMatch alo blo 0) in
  let m1 := extend_left false a b blo (Z.to_nat (m_a m0 - alo)) m0 in
  let m2 := extend_right false a b bhi (Z.to_nat (ahi - (m_a m1 + m_size m1))) m1 in
  let m3 := extend_left true a b blo (Z.to_nat (m_a m2 - alo)) m2 in
  extend_right true a b bhi (Z.to_nat (ahi - (m_a m3 + m_size m3))) m3.

(** The work list of [get_matching_blocks].  [queue.pop()] takes the
    entry appended last, so the list is kept with that entry at its
    head.  [None]: the fuel ran out before the queue was empty. *)
Fixpoint blocks_loop (fuel : nat) (a b : str) (b2j : gmap ascii (list Z))
    (queue : list (Z * Z * Z * Z)) (matching_blocks : list Match)
  : option (list Match) :=
  match queue with
  | [] => Some matching_blocks
  | (alo, ahi, blo, bhi) :: queue' =>
      match fuel with
      | O => None
      | S fuel' =>
          let x := find_longest_match a b b2j alo ahi blo bhi in
          let '(i, j, k) := (m_a x, m_b x, m_size x) in
          if k =? 0 then blocks_loop fuel' a b b2j queue' matching_blocks
          else
            let q1 := if (alo <? i) && (blo <? j)
                      then (alo, i, blo, j) :: queue' else queue' in
            let q2 := if (i + k <? ahi) && (j + k <? bhi)
                      then (i + k, ahi, j + k, bhi) :: q1 else q1 in
            blocks_loop fuel' a b b2j q2 (matching_blocks ++ [x])
      end
  end.

(** What a queue still costs: two units for each row of a range, and
    one for the range itself; and what it means for a block to lie in
    the rows [alo .. hi).  Both serve the termination proof. *)
Definition queue_cost (queue : list (Z * Z * Z * Z)) : Z :=
  foldr (λ '(alo, ahi, _, _) acc, 2 * (ahi - alo) + 1 + acc) 0 queue.

Definition inside (alo hi : Z) (m : Match) : Prop :=
  alo <= m_a m /\ m_a m + m_size m <= hi /\ 0 <= m_size m.

(** Tuple order of the triples, for [matching_blocks.sort()]. *)
Definition match_leb (x y : Match) : bool :=
  (m_a x <? m_a y)
  || ((m_a x =? m_a y)
      && ((m_b x <? m_b y) || ((m_b x =? m_b y) && (m_size x <=? m_size y)))).

Fixpoint insert_sorted (x : Match) (l : list Match) : list Match :=
  match l with
  | [] => [x]
  | y :: l' => if match_leb x y then x :: l else y :: insert_sorted x l'
  end.

Definition sort (l : list Match) : list Match := foldr insert_sorted [] l.

(** Adjacent equal blocks are merged into one. *)
Fixpoint collapse_adjacent (i1 j1 k1 : Z) (l : list Match) : list Match :=
  match l with
  | [] => if k1 =? 0 then [] else [mkMatch i1 j1 k1]
  | x :: l' =>
      if (i1 + k1 =? m_a x) && (j1 + k1 =? m_b x)
      then collapse_adjacent i1 j1 (k1 + m_size x) l'
      else (if k1 =? 0 then [] else [mkMatch i1 j1 k1])
           ++ collapse_adjacent (m_a x) (m_b x) (m_size x) l'
  end.

(** The fuel given here always suffices ([blocks_loop_terminates]
    below), so the default is never used. *)
Definition get_matching_blocks (a b : str) : list Match :=
  let la := Z.of_nat (length a) in
  let lb := Z.of_nat (length b) in
  let blocks :=
    default [] (blocks_loop (2 * length a + 1) a b (chain_b b) [(0, la, 0, lb)] []) in
  collapse_adjacent 0 0 0 (sort blocks) ++ [mkMatch la lb 0].

(** [float(n)] of a Python integer; exact below 2^53. *)
Definition float_of_Z (n : Z) : float := PrimFloat.of_uint63 (Uint63.of_Z n).

Definition calculate_ratio (matches length : Z) : float :=
  if length =? 0 then 1%float
  else PrimFloat.div (PrimFloat.mul 2%float (float_of_Z matches)) (float_of_Z length).

(** [SequenceMatcher(None, a, b).ratio()]. *)
Definition ratio (a b : str) : float :=
  calculate_ratio (foldr Z.add 0 (map m_size (get_matching_blocks a b)))
    (Z.of_nat (length a) + Z.of_nat (length b)).

End Difflib.

(** ** core/main.py: the wake-phrase scorer *)

Definition WAKE_WORDS : list str :=
  [ lit "hey sathi"; lit "hi sathi"; lit "ok sathi"; lit "sathi";
    lit "hello sathi"; lit "dear sathi"; lit "sathi please";
    lit "sathi help"; lit "listen sathi"; lit "sathi are you there" ].

Definition SATHI_GREETINGS : list str :=
  [ lit "Hello! I'm Sathi, your helpful companion. How may I assist you?";
    lit "Good day! I'm here to help you. What can I do for you?";
    lit "Hello dear! I'm Sathi, ready to assist you.";
    lit "I'm here to help! Please tell me what you need.";
    lit "Yes, I'm listening! How can I make your day better?";
    lit "I'm your assistant Sathi. Please let me know how I can help you." ].

(** [re.sub(r'[^a-z0-9 ]', ' ', s)]. *)
Definition is_plain (c : ascii) : bool :=
  between 97 122 c || between 48 57 c || (code c =? 32).

(** A string of lower-case letters, digits and spaces only. *)
Definition plain (s : str) : Prop := Forall (λ c, is_plain c = true) s.

Definition sub_non_plain (s : str) : str :=
  map (λ c, if is_plain c then c else " "%char) s.

(** [re.sub(r'\s+', ' ', s)]: every maximal run of white space becomes
    one space; [in_run] tells that the previous character was white
    space. *)
Fixpoint sub_spaces_from (in_run : bool) (s : str) : str :=
  match s with
  | [] => []
  | c :: r =>
      if isspace c
      then (if in_run then sub_spaces_from true r
            else " "%char :: sub_spaces_from true r)
      else c :: sub_spaces_from false r
  end.

Definition sub_spaces (s : str) : str := sub_spaces_from false s.

(** Lines 64-65: how the heard text is normalized. *)
Definition normalize_text (text : str) : str :=
  strip (sub_spaces (sub_non_plain (lower text))).

(** Lines 71-72: how a wake phrase is normalized. *)
Definition normalize_wake (wake : str) : str :=
  sub_spaces (strip (sub_non_plain (lower wake))).

(** How a loop body of [is_wake_word] ends: with a [return], or by
    falling through with the running [best_score]. *)
Inductive ctl : Type :=
| Return (v : float)
| Next (best_score : float).

(** Lines 92-98, the sliding window over the tokens. *)
Fixpoint window_loop (tokens : list str) (w : str) (win_len : Z)
    (span_threshold : float) (range : list Z) (best_score : float) : ctl :=
  match range with
  | [] => Next best_score
  | i :: range' =>
      let window := join (lit " ") (slice tokens i (i + win_len)) in
      let score := Difflib.ratio window w in
      let best_score' :=
        if PrimFloat.ltb best_score score then score else best_score in
      if PrimFloat.leb span_threshold score then Return score
      else window_loop tokens w win_len span_threshold range' best_score'
  end.

(** Lines 102-107, the text tokens against one token of the phrase. *)
Fixpoint token_loop (wt : str) (token_threshold : float) (tokens : list str)
    (best_score : float) : ctl :=
  match tokens with
  | [] => Next best_score
  | tk :: tokens' =>
      let s := Difflib.ratio tk wt in
      let best_score' :=
        if PrimFloat.ltb best_score s then s else best_score in
      if PrimFloat.leb token_threshold s then Return s
      else token_loop wt token_threshold tokens' best_score'
  end.

(** Lines 101-107. *)
Fixpoint wtoken_loop (tokens : list str) (token_threshold : float)
    (w_tokens : list str) (best_score : float) : ctl :=
  match w_tokens with
  | [] => Next best_score
  | wt :: w_tokens' =>
      match token_loop wt token_threshold tokens best_score with
      | Next best_score' =>
          wtoken_loop tokens token_threshold w_tokens' best_score'
      | r => r
      end
  end.

(** Lines 71-107, the body of [for wake in WAKE_WORDS]. *)
Definition wake_body (norm : str) (tokens : list str)
    (span_threshold token_threshold : float) (wake : str) (best_score : float)
  : ctl :=
  let w := normalize_wake wake in
  if falsy w then Next best_score
  else if eqb norm w then Return 1%float
  else if contains w norm then Return 0.95%float
  else
    let w_tokens := split w in
    if forallb (λ t, mem t tokens) w_tokens then Return 0.9%float
    else
      let win_len := Z.max 1 (Z.of_nat (length w_tokens)) in
      let stop := Z.max 1 (Z.of_nat (length tokens) - win_len + 1) in
      match window_loop tokens w win_len span_threshold (seqZ 0 stop) best_score with
      | Next best_score' =>
          wtoken_loop tokens token_threshold w_tokens best_score'
      | r => r
      end.

Fixpoint wake_loop (norm : str) (tokens : list str)
    (span_threshold token_threshold : float) (wake_words : list str)
    (best_score : float) : float :=
  match wake_words with
  | [] => best_score
  | wake :: wake_words' =>
      match wake_body norm tokens span_threshold token_threshold wake best_score with
      | Return v => v
      | Next best_score' =>
          wake_loop norm tokens span_threshold token_threshold wake_words' best_score'
      end
  end.

(** [is_wake_word], with the module-level phrase list as a parameter. *)
Definition is_wake_word_in (wake_words : list str) (text : str)
    (span_threshold token_threshold : float) : float :=
  if falsy text then 0%float
  else
    let norm := normalize_text text in
    let tokens := split norm in
    wake_loop norm tokens span_threshold token_threshold wake_words 0%float.

(** [is_wake_word(text)] with its default thresholds. *)
Definition is_wake_word (text : str) : float :=
  is_wake_word_in WAKE_WORDS text 0.65%float 0.85%float.

(** ** [re]: the patterns of the intent tables

    The intent patterns use literal characters, [.], groups [( )] and
    [(?: )], alternation [|], and the postfix operators [?], [*] and
    [*?].  On these [re.search] finds a match exactly when some run of
    the text is in the language of the pattern, so a pattern is compiled
    to a regular expression and matched with derivatives. *)

Module Re.

Inductive re : Type :=
| Empty                    (* matches nothing *)
| Eps                      (* matches the empty string *)
| Chr (c : ascii)
| Dot                      (* any character but a newline *)
| Cat (r1 r2 : re)
| Alt (r1 r2 : re)
| Star (r : re).

Definition Opt (r : re) : re := Alt r Eps.

(** *** Compiling a pattern *)

Definition special (c : ascii) : bool :=
  existsb (λ d, bool_decide (c = d)) (lit "()[]{}|?*+.^$\").

(** The postfix operators after an atom: [?], [*] and the lazy [*?],
    which accepts the same strings as [*]. *)
Definition postfix (a : re) (s : str) : re * str :=
  match s with
  | "*"%char :: "?"%char :: s' => (Star a, s')
  | "*"%char :: s' => (Star a, s')
  | "?"%char :: s' => (Opt a, s')
  | _ => (a, s)
  end.

(** Recursive descent; every call takes one unit of fuel, and [None]
    stands for a pattern outside the subset (or for no fuel left). *)
Fixpoint parse_alt (fuel : nat) (s : str) : option (re * str) :=
  match fuel with
  | O => None
  | S f =>
      '(r, rest) ← parse_seq f s;
      match rest with
      | "|"%char :: rest' =>
          '(r2, rest2) ← parse_alt f rest'; Some (Alt r r2, rest2)
      | _ => Some (r, rest)
      end
  end
with parse_seq (fuel : nat) (s : str) : option (re * str) :=
  match fuel with
  | O => None
  | S f =>
      match s with
      | [] => Some (Eps, [])
      | "|"%char :: _ => Some (Eps, s)
      | ")"%char :: _ => Some (Eps, s)
      | _ =>
          '(a, rest) ← parse_atom f s;
          let '(a', rest') := postfix a rest in
          '(r, rest2) ← parse_seq f rest';
          Some (Cat a' r, rest2)
      end
  end
with parse_atom (fuel : nat) (s : str) : option (re * str) :=
  match fuel with
  | O => None
  | S f =>
      match s with
      | [] => None
      | "("%char :: s' =>
          let body := match s' with
                      | "?"%char :: ":"%char :: s2 => s2
                      | _ => s'
                      end in
          '(g, rest) ← parse_alt f body;
          match rest with
          | ")"%char :: rest' => Some (g, rest')
          | _ => None
          end
      | "."%char :: s' => Some (Dot, s')
      | c :: s' => if special c then None else Some (Chr c, s')
      end
  end.

Definition compile (pattern : str) : option re :=
  match parse_alt (3 * length pattern + 3) pattern with
  | Some (r, []) => Some r
  | _ => None
  end.

(** *** Matching *)

Fixpoint nullable (r : re) : bool :=
  match r with
  | Empty => false
  | Eps => true
  | Chr _ => false
  | Dot => false
  | Cat r1 r2 => nullable r1 && nullable r2
  | Alt r1 r2 => nullable r1 || nullable r2
  | Star _ => true
  end.

Definition cat (r1 r2 : re) : re :=
  match r1, r2 with
  | Empty, _ => Empty
  | _, Empty => Empty
  | Eps, _ => r2
  | _, _ => Cat r1 r2
  end.

Definition alt (r1 r2 : re) : re :=
  match r1, r2 with
  | Empty, _ => r2
  | _, Empty => r1
  | _, _ => Alt r1 r2
  end.

(** The derivative: what may follow [c] in a match of [r]. *)
Fixpoint deriv (c : ascii) (r : re) : re :=
  match r with
  | Empty => Empty
  | Eps => Empty
  | Chr d => if bool_decide (c = d) then Eps else Empty
  | Dot => if code c =? 10 then Empty else Eps
  | Cat r1 r2 =>
      alt (cat (deriv c r1) r2) (if nullable r1 then deriv c r2 else Empty)
  | Alt r1 r2 => alt (deriv c r1) (deriv c r2)
  | Star r1 => cat (deriv c r1) (Star r1)
  end.

(** Some prefix of [s] matches [r]. *)
Fixpoint match_prefix (r : re) (s : str) : bool :=
  nullable r ||
  match s with
  | [] => false
  | c :: s' => match_prefix (deriv c r) s'
  end.

(** Some run of [s] matches [r]. *)
Fixpoint search_re (r : re) (s : str) : bool :=
  match_prefix r s ||
  match s with
  | [] => false
  | _ :: s' => search_re r s'
  end.

(** [bool(re.search(pattern, s))]; a match object is always truthy. *)
Definition search (pattern s : str) : bool :=
  match compile pattern with
  | Some r => search_re r s
  | None => false
  end.

End Re.

(** ** Exceptions

    A call either returns a value or raises; [try_ body handler] is
    [try: body / except Exception: handler]. *)

Inductive exn (A : Type) : Type :=
| Ok (a : A)
| Raise.
Arguments Ok {A} a.
Arguments Raise {A}.

Definition try_ {A} (body handler : exn A) : exn A :=
  match body with
  | Ok a => Ok a
  | Raise => handler
  end.

Definition bind_exn {A B} (m : exn A) (k : A -> exn B) : exn B :=
  match m with
  | Ok a => k a
  | Raise => Raise
  end.

(** A response: the spoken text and the text for the display.  The
    display literals of the sources hold code points above 255; they are
    kept as the UTF-8 bytes of the literal. *)
Definition ResponsePair : Type := str * str.

(** ** core/calendar_and_clock.py *)

Module Calendar.

Definition TIME_PATTERNS : list str :=
  [ lit "what(?:'s| is) the time";
    lit "tell me the time";
    lit "current time";
    lit "time now";
    lit "what time (is it|do we have)";
    lit "(?:can you )?tell me what time it is";
    lit "do you know the time";
    lit "check the time" ].

Definition DATE_PATTERNS : list str :=
  [ lit "what(?:'s| is) (?:the )?date(?:.*?today)?";
    lit "today's date";
    lit "what (?:is the )?date";
    lit "tell me (?:the |today's )?date";
    lit "(?:can you )?tell me (?:the )?date";
    lit "what (?:is the )?date (?:today|now)";
    lit "what day of the month is it";
    lit "which date is (?:it|today)";
    lit "(?:what|which) date (?:do we have|is it)";
    lit "date please";
    lit "give me the date";
    lit "today's date";
    lit "(?:what|which) date";
    lit "date" ].

Definition DAY_PATTERNS : list str :=
  [ lit "what day is (?:it|today)";
    lit "which day is (?:it|today)";
    lit "tell me the day";
    lit "(?:can you )?tell me what day it is";
    lit "what day of the week is it";
    lit "is it (monday|tuesday|wednesday|thursday|friday|saturday|sunday)" ].

Definition CALENDAR_PATTERNS : list str :=
  [ lit "(?:read|tell) me this month's calendar";
    lit "how many days (?:are )?(?:in|this) (?:this )?month";
    lit "tell me about this month";
    lit "what month is it";
    lit "give me (?:the )?month(?:'s)? details";
    lit "tell me about (?:the )?current month";
    lit "how long is this month" ].

(** [any(re.search(pattern, text.lower()) for pattern in ...)]. *)
Definition detect_time_intent (text : str) : bool :=
  existsb (λ pattern, Re.search pattern (lower text)) TIME_PATTERNS.

Definition detect_date_intent (text : str) : bool :=
  existsb (λ pattern, Re.search pattern (lower text)) DATE_PATTERNS.

Definition detect_day_intent (text : str) : bool :=
  existsb (λ pattern, Re.search pattern (lower text)) DAY_PATTERNS.

Definition detect_calendar_intent (text : str) : bool :=
  existsb (λ pattern, Re.search pattern (lower text)) CALENDAR_PATTERNS.

(** *** The clock

    [datetime.datetime.now()]: a date and a time of day, or an
    exception.  One query reads one clock. *)
Record datetime : Type :=
  mkDatetime { year : Z; month : Z; day : Z; hour : Z; minute : Z }.

Definition is_leap (y : Z) : bool :=
  (y mod 4 =? 0) && (negb (y mod 100 =? 0) || (y mod 400 =? 0)).

Definition mdays : list Z := [31; 28; 31; 30; 31; 30; 31; 31; 30; 31; 30; 31].

Definition days_in_month (y m : Z) : Z :=
  if (m =? 2) && is_leap y then 29 else nth (Z.to_nat (m - 1)) mdays 0.

Definition days_before_year (y : Z) : Z :=
  (y - 1) * 365 + (y - 1) / 4 - (y - 1) / 100 + (y - 1) / 400.

Definition days_before_month (y m : Z) : Z :=
  foldr Z.add 0 (map (days_in_month y) (seqZ 1 (m - 1))).

(** [datetime.date(y, m, d).weekday()], Monday being 0. *)
Definition weekday (y m d : Z) : Z :=
  (days_before_year y + days_before_month y m + d + 6) mod 7.

Definition day_name : list str :=
  [ lit "Monday"; lit "Tuesday"; lit "Wednesday"; lit "Thursday";
    lit "Friday"; lit "Saturday"; lit "Sunday" ].

Definition month_name : list str :=
  [ lit "January"; lit "February"; lit "March"; lit "April"; lit "May";
    lit "June"; lit "July"; lit "August"; lit "September"; lit "October";
    lit "November"; lit "December" ].

(** [now.strftime('%A')] and [now.strftime('%B')], English names. *)
Definition strftime_A (now : datetime) : str :=
  nth (Z.to_nat (weekday (year now) (month now) (day now))) day_name [].

Definition strftime_B (now : datetime) : str :=
  nth (Z.to_nat (month now - 1)) month_name [].

(** Two digits, the way [%I] and [%M] print. *)
Definition two_digits (n : Z) : str :=
  if n <? 10 then lit "0" ++ of_Z n else of_Z n.

(** [now.strftime('%I:%M %p')]. *)
Definition strftime_IMp (now : datetime) : str :=
  let h := if hour now mod 12 =? 0 then 12 else hour now mod 12 in
  two_digits h ++ lit ":" ++ two_digits (minute now) ++ lit " "
  ++ (if 12 <=? hour now then lit "PM" else lit "AM").

(** [calendar.monthrange(year, month)]. *)
Definition monthrange (y m : Z) : Z * Z := (weekday y m 1, days_in_month y m).

(** *** The formatters *)

Definition get_current_time (clock : exn datetime) : ResponsePair :=
  match clock with
  | Ok now =>
      let hour := hour now mod 12 in
      let hour := if hour =? 0 then 12 else hour in
      let minute := minute now in
      let meridian := if 12 <=? Calendar.hour now then lit "pm" else lit "am" in
      let minute_str :=
        if minute =? 0 then lit "o'clock"
        else if minute <? 10 then lit "oh " ++ of_Z minute
        else of_Z minute in
      let spoken := lit "It's " ++ of_Z hour ++ lit " " ++ minute_str
                    ++ lit " " ++ meridian in
      let display := lit "üïê " ++ strftime_IMp now in
      (spoken, display)
  | Raise =>
      (lit "I'm having trouble reading the time right now.",
       lit "‚ö†Ô∏è Error reading time")
  end.

Definition get_ordinal_suffix (day : Z) : str :=
  let suffix :=
    if (10 <=? day mod 100) && (day mod 100 <=? 20) then lit "th"
    else default (lit "th")
           (({[ 1 := lit "st"; 2 := lit "nd"; 3 := lit "rd" ]} : gmap Z str)
              !! (day mod 10)) in
  of_Z day ++ suffix.

Definition get_current_date (clock : exn datetime) : ResponsePair :=
  match clock with
  | Ok now =>
      let weekday := strftime_A now in
      let month := strftime_B now in
      let day := day now in
      let year := year now in
      let day_str := get_ordinal_suffix day in
      let spoken := lit "Today is " ++ weekday ++ lit ", " ++ month ++ lit " "
                    ++ day_str ++ lit ", " ++ of_Z year in
      let display := lit "üìÖ " ++ weekday ++ lit ", " ++ month ++ lit " "
                     ++ of_Z day ++ lit ", " ++ of_Z year in
      (spoken, display)
  | Raise =>
      (* the handler reads the same clock again *)
      (lit "I'm having trouble reading today's date. Please try asking me again in a moment.",
       lit "‚ö†Ô∏è Error reading date")
  end.

Definition get_current_day (clock : exn datetime) : exn ResponsePair :=
  bind_exn clock (λ now,
    let day_name := strftime_A now in
    let spoken := lit "Today is " ++ day_name in
    let display := lit "üìÖ " ++ day_name in
    Ok (spoken, display)).

Definition get_month_calendar (clock : exn datetime) : exn ResponsePair :=
  bind_exn clock (λ now,
    let month_name := strftime_B now in
    let num_days := (monthrange (year now) (month now)).2 in
    let start_day :=
      nth (Z.to_nat (monthrange (year now) (month now)).1) day_name [] in
    let spoken :=
      lit "We are in the month of " ++ month_name ++ lit ". "
      ++ lit "This month has " ++ of_Z num_days ++ lit " days in total. "
      ++ lit "The first day of " ++ month_name ++ lit " was a " ++ start_day
      ++ lit ". "
      ++ lit "Today is day number " ++ of_Z (day now) ++ lit " of the month." in
    let display :=
      lit "üìÖ " ++ month_name ++ lit " " ++ of_Z (year now) ++ newline
      ++ lit "‚Ä¢ Days in month: " ++ of_Z num_days ++ newline
      ++ lit "‚Ä¢ Started on: " ++ start_day ++ newline
      ++ lit "‚Ä¢ Current day: " ++ of_Z (day now) ++ lit " of "
      ++ of_Z num_days in
    Ok (spoken, display)).

(** *** The query *)

Definition EMPTY_QUERY : ResponsePair :=
  (lit "I didn't quite catch that. Could you please repeat your question?",
   lit "‚ö†Ô∏è Could not understand the query").

Definition INTENT_ERROR : ResponsePair :=
  (lit "I'm having trouble getting that information right now. Please try asking in a simpler way.",
   lit "‚ö†Ô∏è Error processing query").

Definition SYSTEM_ERROR : ResponsePair :=
  (lit "I apologize, but I'm having difficulty understanding. Could you please repeat that?",
   lit "‚ö†Ô∏è System error").

(** [any(word in text for word in words)]. *)
Definition any_word_in (words : list str) (text : str) : bool :=
  existsb (λ word, contains word text) words.

(** Lines 223-249: the pattern groups in their order, then the keyword
    fallback, then [None]. *)
Definition intent_chain (clock : exn datetime) (text : str)
  : exn (option ResponsePair) :=
  if detect_date_intent text then Ok (Some (get_current_date clock))
  else if detect_time_intent text then Ok (Some (get_current_time clock))
  else if detect_day_intent text then
    bind_exn (get_current_day clock) (λ r, Ok (Some r))
  else if detect_calendar_intent text then
    bind_exn (get_month_calendar clock) (λ r, Ok (Some r))
  else if any_word_in [lit "date"; lit "today"; lit "day"; lit "month"] text
  then Ok (Some (get_current_date clock))
  else if any_word_in [lit "time"; lit "clock"; lit "hour"] text
  then Ok (Some (get_current_time clock))
  else Ok None.

Definition process_time_query (clock : exn datetime) (text : str)
  : exn (option ResponsePair) :=
  try_
    (if falsy text then Ok (Some EMPTY_QUERY)
     else
       let text := strip (lower text) in
       try_ (intent_chain clock text) (Ok (Some INTENT_ERROR)))
    (Ok (Some SYSTEM_ERROR)).

End Calendar.

(** ** Effects

    What the program does to the outside world is recorded as a trace of
    events, in the order of the calls; an event is recorded when the
    call is made, whether or not it then raises.  Console output,
    logging and [time.sleep] are left out of the trace: they change no
    control flow. *)

Inductive event : Type :=
| EngineInit                               (* pyttsx3.init() *)
| SetRate (rate : Z)                       (* engine.setProperty('rate', _) *)
| SetVolume (volume : float)               (* engine.setProperty('volume', _) *)
| GetVoices                                (* engine.getProperty('voices') *)
| SetVoice (id : str)                      (* engine.setProperty('voice', _) *)
| Say (text : str)                         (* engine.say(_) *)
| SaveToFile (text file : str)             (* engine.save_to_file(_, _) *)
| RunAndWait                               (* engine.runAndWait() *)
| MakeDirs (dir : str)                     (* os.makedirs(_, exist_ok=True) *)
| RecordAudio (duration : Z) (filename : str)
| Transcribe (audio_path : option str)
| GenerateContent (prompt : str).          (* model.generate_content(_) *)

(** A computation extends the trace and returns or raises. *)
Definition M (A : Type) : Type := list event -> list event * exn A.

Global Instance M_ret : MRet M := λ A a tr, (tr, Ok a).

Global Instance M_bind : MBind M := λ A B k m tr,
  match m tr with
  | (tr', Ok a) => k a tr'
  | (tr', Raise) => (tr', Raise)
  end.

(** [try: body / except Exception: handler]. *)
Definition try_m {A} (body handler : M A) : M A := λ tr,
  match body tr with
  | (tr', Ok a) => (tr', Ok a)
  | (tr', Raise) => handler tr'
  end.

(** A pure call that may raise. *)
Definition lift {A} (r : exn A) : M A := λ tr, (tr, r).

Definition run {A} (m : M A) : list event * exn A := m [].

(** ** core/tts_output.py *)

Module Tts.

(** A voice of the speech engine. *)
Record Voice : Type := mkVoice { voice_id : str; voice_name : str }.

(** The machine the program runs on: the installed voices, which calls
    raise, the time stamp the clock gives a file name, and
    [os.path.join]. *)
Record Host : Type := mkHost {
  voices : list Voice;
  raises : event -> bool;
  timestamp : str;
  path_join : str -> str -> str
}.

(** One call to the engine or the operating system. *)
Definition call (h : Host) (e : event) : M unit := λ tr,
  (tr ++ [e], if raises h e then Raise else Ok ()).

(** The test both functions make on a lowered voice name. *)
Definition matches_profile (use_male_voice : bool) (voice_name : str) : bool :=
  if use_male_voice
  then contains (lit "david") voice_name || contains (lit "male") voice_name
  else contains (lit "zira") voice_name || contains (lit "female") voice_name.

(** [for voice in voices: ... selected_voice = voice.id; break]. *)
Fixpoint select_voice (use_male_voice : bool) (voices : list Voice) : option str :=
  match voices with
  | [] => None
  | voice :: voices' =>
      if matches_profile use_male_voice (lower (voice_name voice))
      then Some (voice_id voice)
      else select_voice use_male_voice voices'
  end.

(** [if selected_voice:] holds for an id that is not the empty string. *)
Definition truthy (selected_voice : option str) : bool :=
  match selected_voice with
  | Some (_ :: _) => true
  | _ => false
  end.

(** [speak_text]: [Some true] is [True], [Some false] is [False] and
    [None] is the [None] of a bare [return]. *)
Definition speak_text (h : Host) (text : str) (use_male_voice : bool)
  : M (option bool) :=
  if falsy text then mret None
  else
    try_m
      (call h EngineInit;;
       call h (SetRate 150);;
       call h (SetVolume 0.9%float);;
       call h GetVoices;;
       match voices h with
       | [] => mret None
       | first :: _ =>
           let selected_voice := select_voice use_male_voice (voices h) in
           (if truthy selected_voice
            then call h (SetVoice (default [] selected_voice))
            else call h (SetVoice (voice_id first)));;
           call h (Say text);;
           call h RunAndWait;;
           mret (Some true)
       end)
      (mret (Some false)).

(** [text_to_speech]: the path of the audio file, or [None]. *)
Definition text_to_speech (h : Host) (text : str) (output_dir : str)
    (use_male_voice : bool) : M (option str) :=
  try_m
    (call h (MakeDirs output_dir);;
     call h EngineInit;;
     call h (SetRate 120);;
     call h (SetVolume 0.9%float);;
     call h GetVoices;;
     let selected_voice := select_voice use_male_voice (voices h) in
     (if truthy selected_voice
      then call h (SetVoice (default [] selected_voice))
      else match voices h with
           | first :: _ => call h (SetVoice (voice_id first))
           | [] => mret ()
           end);;
     let output_file :=
       path_join h output_dir (lit "response_" ++ timestamp h ++ lit ".wav") in
     call h (SaveToFile text output_file);;
     call h RunAndWait;;
     mret (Some output_file))
    (mret None).

End Tts.

(** ** core/llm_gemma.py *)

Definition SYSTEM_PROMPT : str :=
  join newline [
    lit "";
    lit "You are Sathi, a gentle elder care companion. Follow these guidelines:";
    lit "";
    lit "1. Communication:";
    lit "   - Use simple, clear English";
    lit "   - Keep responses short (2-3 sentences)";
    lit "   - Speak slowly and warmly";
    lit "";
    lit "2. Daily Care:";
    lit "   - Medicine reminders";
    lit "   - Meals and water";
    lit "   - Rest and light exercise";
    lit "";
    lit "3. Support:";
    lit "   - Show patience and kindness";
    lit "   - Comfort when lonely";
    lit "   - Alert family if health concerns arise";
    lit "";
    lit "Be their trusted friend. Make them feel safe." ].

(** [query_gemma]: [model] stands for the remote model, which answers a
    prompt with a text or raises. *)
Definition query_gemma (model : str -> exn str) (prompt : str) : M str :=
  let full_prompt := SYSTEM_PROMPT ++ newline ++ lit "User: " ++ prompt in
  λ tr, (tr ++ [GenerateContent full_prompt], model full_prompt).

(** ** core/main.py: the interaction and the wake loop *)

(** What the program runs against: the machine, the clock and the
    remote model. *)
Record World : Type := mkWorld {
  host : Tts.Host;
  clock : exn Calendar.datetime;
  model : str -> exn str
}.

(** The calls to [record_audio] and [transcribe_audio] of
    core/voice_input.py, once they have returned: each returns a text or
    [None], and what the microphone and the recognizer deliver is an
    input of the model.  [transcribe_audio] handles its own failures;
    [record_audio] can also raise, when it creates the directory of the
    recording: [VoiceInput.record_audio] below is the function itself. *)
Definition record_audio (result : option str) (duration : Z) (filename : str)
  : M (option str) :=
  λ tr, (tr ++ [RecordAudio duration filename], Ok result).

Definition transcribe_audio (result : option str) (audio_path : option str)
  : M (option str) :=
  λ tr, (tr ++ [Transcribe audio_path], Ok result).

(** [not x] for a value that is a string or [None]. *)
Definition falsy_opt (x : option str) : bool :=
  match x with
  | Some (_ :: _) => false
  | _ => true
  end.

(** [not r] for the result of [speak_text]. *)
Definition not_result (r : option bool) : bool :=
  match r with
  | Some true => false
  | _ => true
  end.

Definition AUDIO_DIR : str := lit "data/audio".

(** Lines 136-152: a truthy [time_response] is spoken and the function
    returns ([true]); [None] falls through to the model ([false]). *)
Definition speak_time_response (w : World) (time_response : option ResponsePair)
  : M bool :=
  match time_response with
  | Some (spoken_text, display_text) =>
      (if negb (falsy spoken_text) then
         r ← Tts.speak_text (host w) spoken_text true;
         if not_result r
         then Tts.text_to_speech (host w) spoken_text AUDIO_DIR true;; mret ()
         else mret ()
       else
         Tts.speak_text (host w)
           (lit "I'm having trouble telling the time right now.") true;;
         mret ());;
      mret true
  | None => mret false
  end.

(** [sathi_interaction]; [audio] and [heard] are what the microphone and
    the recognizer deliver. *)
Definition sathi_interaction (w : World) (audio heard : option str) : M unit :=
  audio_path ← record_audio audio 8 (lit "data/audio/audio.wav");
  if falsy_opt audio_path then mret ()
  else
    transcription ← transcribe_audio heard audio_path;
    if falsy_opt transcription then mret ()
    else
      let transcription := default [] transcription in
      returned ←
        try_m
          (time_response ← lift (Calendar.process_time_query (clock w) transcription);
           speak_time_response w time_response)
          (mret false);
      if (returned : bool) then mret ()
      else
        response ←
          try_m (response ← query_gemma (model w) transcription;
                 mret (Some response))
                (mret None);
        match response with
        | None => mret ()
        | Some response =>
            Tts.speak_text (host w) response true;;
            Tts.text_to_speech (host w) response AUDIO_DIR true;;
            mret ()
        end.

(** How a statement inside the [while] loop ends: control falls to the
    next statement, or leaves the loop, or starts the next iteration. *)
Inductive flow : Type := Fall | Break | Continue.

(** [greeting = random.choice(SATHI_GREETINGS)], spoken and saved;
    [pick] is the choice made. *)
Definition greet (w : World) (pick : nat) : M unit :=
  let greeting := nth (Nat.modulo pick (length SATHI_GREETINGS)) SATHI_GREETINGS [] in
  Tts.speak_text (host w) greeting true;;
  Tts.text_to_speech (host w) greeting AUDIO_DIR true;;
  mret ().

(** Lines 194-204. *)
Definition first_block (w : World) (pick : nat) (score : float) : M flow :=
  if PrimFloat.leb 0.70%float score
  then greet w pick;; mret Break
  else mret Continue.

Definition CONFIRM_PROMPT : str := lit "Did you say Sathi? Please say yes or no.".

Definition AFFIRMATIVE : list str :=
  [lit "yes"; lit "yeah"; lit "yup"; lit "ya"; lit "correct"; lit "right"].

(** Lines 215-258; [confirm_audio] and [confirm_heard] are what the
    re-listen delivers. *)
Definition second_block (w : World) (pick : nat) (score : float)
    (confirm_audio confirm_heard : option str) : M flow :=
  if PrimFloat.leb 0.9%float score
  then greet w pick;; mret Break
  else if PrimFloat.leb 0.55%float score then
    Tts.speak_text (host w) CONFIRM_PROMPT true;;
    Tts.text_to_speech (host w) CONFIRM_PROMPT AUDIO_DIR true;;
    confirm_audio ← record_audio confirm_audio 3 (lit "data/audio/confirm.wav");
    confirm_trans ←
      (if falsy_opt confirm_audio then mret None
       else transcribe_audio confirm_heard confirm_audio);
    if falsy_opt confirm_trans then mret Continue
    else
      let ct := lower (default [] confirm_trans) in
      if existsb (λ w, contains w ct) AFFIRMATIVE
      then greet w pick;; mret Break
      else mret Continue
  else mret Fall.

(** Lines 179-258, one pass through the body of the first [while True]:
    the statements in their order, each reached only when the one before
    it falls through. *)
Definition wake_iteration (w : World) (pick : nat)
    (audio heard confirm_audio confirm_heard : option str) : M flow :=
  audio_path ← record_audio audio 5 (lit "data/audio/listen.wav");
  transcription ← transcribe_audio heard audio_path;
  if falsy_opt transcription then mret Continue
  else
    let norm_trans := strip (default [] transcription) in
    let score := is_wake_word norm_trans in
    fl ← first_block w pick score;
    match fl with
    | Fall =>
        let norm_trans := strip (default [] transcription) in
        let score := is_wake_word norm_trans in
        second_block w pick score confirm_audio confirm_heard
    | _ => mret fl
    end.

(** What one pass of the wake loop, or one interaction, gets from the
    outside: the greeting [random.choice] picks, and what the microphone
    and the recognizer deliver, for the utterance and for the re-listen. *)
Record Listen : Type := mkListen {
  l_pick : nat;
  l_audio : option str;
  l_heard : option str;
  l_confirm_audio : option str;
  l_confirm_heard : option str
}.

(** The first [while True] over the utterances that arrive: the
    utterances left when the loop is left, [None] when they run out
    before. *)
Fixpoint wake_phase (w : World) (inputs : list Listen) : M (option (list Listen)) :=
  match inputs with
  | [] => mret None
  | i :: inputs' =>
      fl ← wake_iteration w (l_pick i) (l_audio i) (l_heard i)
             (l_confirm_audio i) (l_confirm_heard i);
      match fl with
      | Break => mret (Some inputs')
      | _ => wake_phase w inputs'
      end
  end.

(** The second [while True]. *)
Fixpoint conversation (w : World) (inputs : list Listen) : M unit :=
  match inputs with
  | [] => mret ()
  | i :: inputs' =>
      sathi_interaction w (l_audio i) (l_heard i);;
      conversation w inputs'
  end.

(** [sathi_assistant] on a finite run of utterances. *)
Definition sathi_assistant (w : World) (inputs : list Listen) : M unit :=
  left ← wake_phase w inputs;
  match left with
  | Some inputs' => conversation w inputs'
  | None => mret ()
  end.

(** ** The rules of the specification, in its own words *)

(** The ordinal-suffix rule: "th" when [day mod 100] lies in [10,20],
    otherwise by the last digit, 1 "st", 2 "nd", 3 "rd", else "th". *)
Definition ordinal_suffix_rule (day : Z) : str :=
  if bool_decide (10 <= day mod 100 <= 20) then lit "th"
  else if bool_decide (day mod 10 = 1) then lit "st"
  else if bool_decide (day mod 10 = 2) then lit "nd"
  else if bool_decide (day mod 10 = 3) then lit "rd"
  else lit "th".

(** The states of the wake state machine.  One pass of the wake loop
    starts in [Idle]; it has been in [AwaitingConfirmation] exactly when
    the confirmation prompt was spoken, and it ends in [Conversing] when
    the loop is left and in [Idle] otherwise. *)
Inductive ConversationState : Type := Idle | AwaitingConfirmation | Conversing.

Definition state_after (fl : flow) : ConversationState :=
  match fl with
  | Break => Conversing
  | _ => Idle
  end.

Definition is_say (text : str) (e : event) : bool :=
  match e with
  | Say t => eqb t text
  | _ => false
  end.

Definition is_any_say (e : event) : bool :=
  match e with
  | Say _ => true
  | _ => false
  end.

Definition awaited_confirmation (trace : list event) : bool :=
  existsb (is_say CONFIRM_PROMPT) trace.

(** An event that makes the machine speak: [say] or [save_to_file]. *)
Definition is_speech (e : event) : bool :=
  match e with
  | Say _ | SaveToFile _ _ => true
  | _ => false
  end.

(** ** Inputs of the worked examples *)

(** Wednesday 4 November 2026, 20:05, read from a working clock. *)
Definition clock_example : exn Calendar.datetime :=
  Ok (Calendar.mkDatetime 2026 11 4 20 5).

(** A machine with two voices, neither of them male by name, on which no
    call raises. *)
Definition host_example : Tts.Host :=
  Tts.mkHost
    [ Tts.mkVoice (lit "voice.hazel") (lit "Microsoft Hazel Desktop");
      Tts.mkVoice (lit "voice.susan") (lit "Microsoft Susan") ]
    (λ _, false)
    (lit "20261104_200500")
    (λ dir name, dir ++ lit "/" ++ name).

(** The same machine with no voice installed. *)
Definition host_no_voice : Tts.Host :=
  Tts.mkHost [] (λ _, false) (lit "20261104_200500")
    (λ dir name, dir ++ lit "/" ++ name).

(** A world whose remote model is out of reach, and one whose model
    answers every prompt with the same sentence. *)
Definition world_model_down : World :=
  mkWorld host_example clock_example (λ _, Raise).

Definition world_model_up : World :=
  mkWorld host_example clock_example (λ _, Ok (lit "Please drink some water.")).

(** An utterance heard from the file of the wake loop, with "yes please"
    ready for a re-listen. *)
Definition listen_to (text : string) : Listen :=
  mkListen 0 (Some (lit "data/audio/listen.wav")) (Some (lit text))
    (Some (lit "data/audio/confirm.wav")) (Some (lit "yes please")).

(** ** Auxiliary notions of the further properties *)

(** The regular expression a pattern without special characters
    compiles to: its characters in sequence. *)
Definition literal_re (p : str) : Re.re :=
  foldr (λ c r, Re.Cat (Re.Chr c) r) Re.Eps p.

(** No character of [p] is white space. *)
Definition solid (p : str) : Prop := Forall (λ c, isspace c = false) p.

(** An event of the speech engine or of the file system, as opposed to
    the microphone, the recognizer and the remote model. *)
Definition is_engine (e : event) : bool :=
  match e with
  | RecordAudio _ _ | Transcribe _ | GenerateContent _ => false
  | _ => true
  end.

Definition is_generate (e : event) : bool :=
  match e with
  | GenerateContent _ => true
  | _ => false
  end.

(** The two events of one pass of the wake loop that hears nothing it
    accepts. *)
Definition listened (i : Listen) : list event :=
  [RecordAudio 5 (lit "data/audio/listen.wav"); Transcribe (l_audio i)].

(** The utterance of [i] does not wake the assistant: nothing was
    recognized, or the score is below 0.70. *)
Definition below_cutoff (i : Listen) : Prop :=
  falsy_opt (l_heard i) = true
  \/ PrimFloat.leb 0.70%float (is_wake_word (strip (default [] (l_heard i)))) = false.

(** ** core/task_manager.py

    The table [tasks] of the SQLite database is a list of rows in the
    order of their insertion, together with the counter that
    AUTOINCREMENT keeps.  The table exists: [init_db] runs when the
    module is imported. *)

Module Tasks.

Record Task : Type := mkTask {
  task_id : Z;
  task_time : str;               (* time TEXT NOT NULL *)
  task_message : str;            (* message TEXT NOT NULL *)
  is_active : bool;              (* is_active BOOLEAN DEFAULT 1 *)
  created_at : str;              (* created_at TIMESTAMP DEFAULT CURRENT_TIMESTAMP *)
  last_run : option str;         (* last_run TIMESTAMP *)
  repeat_daily : bool            (* repeat_daily BOOLEAN DEFAULT 1 *)
}.

Record Db : Type := mkDb { rows : list Task; seq : Z }.

(** What the calls to [sqlite3] depend on besides the table: whether
    they raise (a locked or unreachable database), and the value of
    CURRENT_TIMESTAMP.  A [Store] describes the database for one call of
    a function of this module.  [check_tasks] of the scheduler makes
    several such calls, each on a connection of its own; they are given
    the same [Store], so the model covers the runs in which the database
    answers all of them alike, and what is proved about marking a task
    is proved for a database that does not raise. *)
Record Store : Type := mkStore { db_raises : bool; current_timestamp : str }.

Definition digit (c : ascii) : bool := between 48 57 c.

(** [datetime.strptime(time_str, "%H:%M")] succeeds: an hour written
    [2[0-3]], [[0-1]\d] or [\d], a colon, a minute written [[0-5]\d] or
    [\d], and nothing else. *)
Definition hour2 (a b : ascii) : bool :=
  ((code a =? 50) && between 48 51 b) || (between 48 49 a && digit b).

Definition strptime_HM (s : str) : bool :=
  match s with
  | [h; c; m] => digit h && (code c =? 58) && digit m
  | [a; b; c; d] =>
      if code b =? 58 then digit a && between 48 53 c && digit d
      else hour2 a b && (code c =? 58) && digit d
  | [a; b; c; m1; m2] =>
      hour2 a b && (code c =? 58) && between 48 53 m1 && digit m2
  | _ => false
  end.

(** The id AUTOINCREMENT gives the next row: one more than the largest
    id the table holds or ever held. *)
Definition next_id (db : Db) : Z :=
  Z.max (seq db) (foldr Z.max 0 (map task_id (rows db))) + 1.

(** Where a database that raises does so in [add_task]: while [conn] is
    still [None] ([init_db], [sqlite3.connect]), or once [conn] is the
    connection ([cursor], [execute], [commit]). *)
Inductive stage : Type := Connecting | Connected.

(** [add_task]: the table afterwards, and the boolean returned or the
    exception raised.  Line 103 binds [conn = None] before the [try],
    so the [finally] of lines 131-133 always finds [conn] among the
    locals and calls [conn.close()]: while [conn] is still [None] this
    raises [AttributeError], which leaves the function in place of the
    [False] that lines 110 and 130 were about to return. *)
Definition add_task (env : Store) (st : stage) (time_str message : str)
    (repeat_daily : bool) (db : Db) : Db * exn bool :=
  if negb (strptime_HM time_str) then (db, Raise)
  else if db_raises env then
    match st with
    | Connecting => (db, Raise)
    | Connected => (db, Ok false)
    end
  else
    let id := next_id db in
    (mkDb (rows db ++ [mkTask id time_str message true (current_timestamp env)
                         None repeat_daily]) id,
     Ok true).

(** A row as [fetch_tasks] selects it:
    [SELECT id, time, message, repeat_daily, last_run]. *)
Record Row : Type := mkRow {
  row_id : Z;
  row_time : str;
  row_message : str;
  row_repeat_daily : bool;
  row_last_run : option str
}.

Definition select (t : Task) : Row :=
  mkRow (task_id t) (task_time t) (task_message t) (repeat_daily t) (last_run t).

(** The order of TEXT values: code point by code point, a proper prefix
    first. *)
Fixpoint str_leb (a b : str) : bool :=
  match a, b with
  | [], _ => true
  | _ :: _, [] => false
  | x :: a', y :: b' =>
      if code x <? code y then true
      else if code y <? code x then false
      else str_leb a' b'
  end.

(** [ORDER BY time]; rows with equal times stay in the order of the
    table. *)
Fixpoint insert_by_time (r : Row) (l : list Row) : list Row :=
  match l with
  | [] => [r]
  | x :: l' =>
      if str_leb (row_time r) (row_time x) then r :: l
      else x :: insert_by_time r l'
  end.

Definition order_by_time (l : list Row) : list Row :=
  foldr insert_by_time [] l.

(** [fetch_tasks]: the active rows, ordered by time; [[]] when the
    database raises. *)
Definition fetch_tasks (env : Store) (db : Db) : list Row :=
  if db_raises env then []
  else order_by_time (map select (filter (λ t, is_active t = true) (rows db))).

(** [UPDATE tasks SET last_run = CURRENT_TIMESTAMP WHERE id = ?]. *)
Definition update_last_run (env : Store) (id : Z) (db : Db) : Db :=
  if db_raises env then db
  else
    mkDb (map (λ t, if task_id t =? id
                    then mkTask (task_id t) (task_time t) (task_message t)
                           (is_active t) (created_at t)
                           (Some (current_timestamp env)) (repeat_daily t)
                    else t) (rows db))
      (seq db).

(** [delete_task]: [UPDATE tasks SET is_active = 0 WHERE id = ?]. *)
Definition delete_task (env : Store) (id : Z) (db : Db) : Db * bool :=
  if db_raises env then (db, false)
  else
    (mkDb (map (λ t, if task_id t =? id
                     then mkTask (task_id t) (task_time t) (task_message t)
                            false (created_at t) (last_run t) (repeat_daily t)
                     else t) (rows db))
       (seq db),
     true).

End Tasks.

(** ** core/task_scheduler.py *)

Module Scheduler.

Import Tasks.

(** [announce_task]: the reminder is spoken, then marked as run. *)
Definition announce_task (h : Tts.Host) (env : Store) (task : Row) (db : Db)
  : M Db :=
  try_m
    (let intro := lit "Excuse me, I have a reminder for you. " in
     let message := intro ++ row_message task in
     Tts.speak_text h message true;;
     mret (update_last_run env (row_id task) db))
    (mret db).

(** [not task.get('last_run')]. *)
Definition never_run (task : Row) : bool :=
  match row_last_run task with
  | Some (_ :: _) => false
  | _ => true
  end.

(** The loop of [check_tasks] over the rows fetched before it. *)
Fixpoint check_loop (h : Tts.Host) (env : Store) (current_time : str)
    (tasks : list Row) (db : Db) : M Db :=
  match tasks with
  | [] => mret db
  | task :: tasks' =>
      db' ← (if eqb (row_time task) current_time
             then if row_repeat_daily task || never_run task
                  then announce_task h env task db
                  else mret db
             else mret db);
      check_loop h env current_time tasks' db'
  end.

(** [datetime.now().strftime("%H:%M")]. *)
Definition strftime_HM (now : Calendar.datetime) : str :=
  Calendar.two_digits (Calendar.hour now) ++ lit ":"
  ++ Calendar.two_digits (Calendar.minute now).

(** [check_tasks]. *)
Definition check_tasks (h : Tts.Host) (env : Store)
    (clock : exn Calendar.datetime) (db : Db) : M Db :=
  try_m
    (now ← lift clock;
     let current_time := strftime_HM now in
     let tasks := fetch_tasks env db in
     check_loop h env current_time tasks db)
    (mret db).

End Scheduler.

(** ** Auxiliary notions for the table of reminders *)

(** Rows in the order [ORDER BY time] asks for. *)
Definition time_le (a b : Tasks.Row) : Prop :=
  Tasks.str_leb (Tasks.row_time a) (Tasks.row_time b) = true.

(** A table with nothing in it. *)
Definition empty_db : Tasks.Db := Tasks.mkDb [] 0.

(** The test [check_tasks] makes on a fetched row at [current_time]:
    the time texts are equal, and the task repeats or has never run. *)
Definition due (current_time : str) (r : Tasks.Row) : bool :=
  eqb (Tasks.row_time r) current_time
  && (Tasks.row_repeat_daily r || Scheduler.never_run r).

(** The row [t] once [update_last_run] has marked it. *)
Definition marked (env : Tasks.Store) (t : Tasks.Task) : Tasks.Task :=
  Tasks.mkTask (Tasks.task_id t) (Tasks.task_time t) (Tasks.task_message t)
    (Tasks.is_active t) (Tasks.created_at t)
    (Some (Tasks.current_timestamp env)) (Tasks.repeat_daily t).

(** A time of day. *)
Definition time_of_day (now : Calendar.datetime) : Prop :=
  0 <= Calendar.hour now < 24 /\ 0 <= Calendar.minute now < 60.

(** ** core/voice_input.py: the recording, and reading the output of the
    recognizer *)

Module VoiceInput.

(** The microphone as [record_audio] finds it: whether the directory of
    the recording exists, what [os.makedirs] does when it does not, and
    what recording ([sd.rec], [sd.wait]) and saving ([write]) do.
    [recorded] is [Raise] for an exception of the sound device and for
    an interrupt from the keyboard alike: both handlers return [None]. *)
Record Microphone : Type := mkMicrophone {
  parent_exists : bool;
  makedirs : exn unit;
  recorded : exn unit;
  written : exn unit
}.

(** [record_audio].  Lines 17-20 create the directory outside every
    [try], so an exception of [os.makedirs] leaves the function; [parent]
    is an absolute path, hence never the empty string.  The two [try]
    blocks of lines 24-45 turn their exceptions into [None]. *)
Definition record_audio (mic : Microphone) (duration : Z) (filename : str)
  : exn (option str) :=
  bind_exn (if negb (parent_exists mic) then makedirs mic else Ok ()) (λ _,
    match recorded mic with
    | Raise => Ok None
    | Ok _ =>
        match written mic with
        | Raise => Ok None
        | Ok _ => Ok (Some filename)
        end
    end).


(** [s.split(sep)] for a separator of one character: the pieces between
    the separators, empty pieces included; never the empty list. *)
Fixpoint split_on (sep : ascii) (s : str) : list str :=
  match s with
  | [] => [[]]
  | c :: r =>
      if bool_decide (c = sep) then [] :: split_on sep r
      else match split_on sep r with
           | piece :: pieces => (c :: piece) :: pieces
           | [] => [[c]]
           end
  end.

(** [pieces[-1]]. *)
Definition last_piece (pieces : list str) : str := default [] (last pieces).

(** Lines 83-89: the text after the time stamp of every line that has
    one. *)
Fixpoint stamped_text (lines : list str) (transcribed_text : str) : str :=
  match lines with
  | [] => transcribed_text
  | line :: lines' =>
      let transcribed_text' :=
        if contains (lit "-->") line && contains (lit "]") line then
          let text_part := strip (last_piece (split_on "]"%char line)) in
          if falsy text_part then transcribed_text
          else transcribed_text ++ text_part ++ lit " "
        else transcribed_text in
      stamped_text lines' transcribed_text'
  end.

(** Lines 91-95: the fallback, every line that is not a log line. *)
Fixpoint plain_text (lines : list str) (transcribed_text : str) : str :=
  match lines with
  | [] => transcribed_text
  | line :: lines' =>
      let transcribed_text' :=
        if negb (falsy (strip line))
           && negb (startswith (lit "whisper_") line)
           && negb (startswith (lit "system_info:") line)
           && negb (startswith (lit "main:") line)
           && negb (startswith (lit "[") line)
        then transcribed_text ++ strip line ++ lit " "
        else transcribed_text in
      plain_text lines' transcribed_text'
  end.

(** Lines 76-105: from the standard output of the recognizer to the
    text, or [None]. *)
Definition read_output (output : str) : option str :=
  let lines := split_on "010"%char output in
  let transcribed_text := stamped_text lines [] in
  let transcribed_text :=
    if falsy (strip transcribed_text) then plain_text lines transcribed_text
    else transcribed_text in
  let transcribed_text := strip transcribed_text in
  if falsy transcribed_text then None else Some transcribed_text.

(** The recognizer as the function finds it: whether the executable and
    the model file exist, and what running it gives - a return code and
    the standard output, or an exception (a timeout is one). *)
Record Whisper : Type := mkWhisper {
  exe_exists : bool;
  model_exists : bool;
  completed : exn (Z * str)
}.

(** [transcribe_audio]. *)
Definition transcribe_audio (wh : Whisper) : option str :=
  if negb (exe_exists wh) then None
  else if negb (model_exists wh) then None
  else
    match completed wh with
    | Ok (returncode, stdout) =>
        if negb (returncode =? 0) then None else read_output stdout
    | Raise => None
    end.

End VoiceInput.

(** ** core/main.py, line 118: the interaction from the microphone on

    [sathi_interaction] calls [record_audio] outside every [try]: what
    [record_audio] raises leaves the interaction before anything else is
    done.  [sathi_interaction] above starts from the value that
    [record_audio] returned. *)
Definition sathi_interaction_from (w : World) (mic : VoiceInput.Microphone)
    (heard : option str) : M unit :=
  audio ← lift (VoiceInput.record_audio mic 8 (lit "data/audio/audio.wav"));
  sathi_interaction w audio heard.

(** * Properties *)

(** ** The matcher terminates

    The work list of [get_matching_blocks] is run with [2 * len(a) + 1]
    units of fuel.  Every block found lies inside the range it was
    looked for in and every split of a range loses at least one
    position, so that much fuel always empties the list. *)

Section DifflibTermination.

Import Difflib.

Variables (a b : str) (b2j : gmap ascii (list Z)).

Lemma scan_js_bounds alo i blo bhi js j2len newj2len best :
  alo <= i ->
  map_Forall (λ _ v, 0 < v <= i - alo) j2len ->
  map_Forall (λ _ v, 0 < v <= i + 1 - alo) newj2len ->
  inside alo (i + 1) best ->
  map_Forall (λ _ v, 0 < v <= i + 1 - alo) (scan_js i blo bhi js j2len newj2len best).1
  /\ inside alo (i + 1) (scan_js i blo bhi js j2len newj2len best).2.
Proof.
  intros Hi Hold. revert newj2len best.
  induction js as [|j js IH]; intros newj2len best Hnew Hbest; cbn [scan_js].
  - split; assumption.
  - destruct (j <? blo); [apply IH; assumption|].
    destruct (bhi <=? j); [split; assumption|].
    set (k := default 0 (j2len !! (j - 1)) + 1).
    assert (Hk : 0 < k <= i + 1 - alo).
    { subst k. destruct (j2len !! (j - 1)) as [v|] eqn:E; simpl.
      - apply Hold in E. simpl in E. lia.
      - lia. }
    apply IH.
    + apply map_Forall_insert_2; assumption.
    + destruct (m_size best <? k); [|assumption].
      unfold inside. simpl. lia.
Qed.

Lemma scan_is_bounds alo blo bhi n : forall i j2len best,
  alo <= i ->
  map_Forall (λ _ v, 0 < v <= i - alo) j2len ->
  inside alo i best ->
  inside alo (i + Z.of_nat n)
    (scan_is a b2j blo bhi (seqZ i (Z.of_nat n)) j2len best).
Proof.
  induction n as [|n IH]; intros i j2len best Hi Hmap Hbest.
  - simpl. rewrite Z.add_0_r. assumption.
  - rewrite seqZ_cons by lia. cbn [scan_is].
    set (js := from_option _ _ _).
    assert (Hbest' : inside alo (i + 1) best) by (unfold inside in *; lia).
    pose proof (scan_js_bounds alo i blo bhi js j2len ∅ best Hi Hmap
                  (map_Forall_empty _) Hbest') as [Hn Hb].
    destruct (scan_js i blo bhi js j2len ∅ best) as [newj2len best'].
    simpl in Hn, Hb.
    replace (Z.pred (Z.of_nat (S n))) with (Z.of_nat n) by lia.
    replace (i + Z.of_nat (S n)) with (Z.succ i + Z.of_nat n) by lia.
    apply IH.
    + lia.
    + eapply map_Forall_impl; [exact Hn|]. simpl. intros. lia.
    + unfold inside in *. lia.
Qed.

Lemma extend_left_bounds junk alo blo n : forall m,
  Z.of_nat n <= m_a m - alo ->
  alo <= m_a (extend_left junk a b blo n m)
  /\ m_a (extend_left junk a b blo n m) + m_size (extend_left junk a b blo n m)
     = m_a m + m_size m
  /\ m_size m <= m_size (extend_left junk a b blo n m).
Proof.
  induction n as [|n IH]; intros m Hn; cbn [extend_left].
  - lia.
  - destruct (at_ a (m_a m - 1)); [|lia].
    destruct (at_ b (m_b m - 1)); [|lia].
    destruct (_ && _ && _); [|lia].
    specialize (IH (mkMatch (m_a m - 1) (m_b m - 1) (m_size m + 1))).
    simpl in IH. lia.
Qed.

Lemma extend_right_bounds junk ahi bhi n : forall m,
  m_a m + m_size m + Z.of_nat n <= ahi ->
  m_a (extend_right junk a b bhi n m) = m_a m
  /\ m_a m + m_size (extend_right junk a b bhi n m) <= ahi
  /\ m_size m <= m_size (extend_right junk a b bhi n m).
Proof.
  induction n as [|n IH]; intros m Hn; cbn [extend_right].
  - lia.
  - destruct (at_ a (m_a m + m_size m)); [|lia].
    destruct (at_ b (m_b m + m_size m)); [|lia].
    destruct (_ && _ && _); [|lia].
    specialize (IH (mkMatch (m_a m) (m_b m) (m_size m + 1))).
    simpl in IH. lia.
Qed.

Lemma find_longest_match_bounds alo ahi blo bhi :
  alo <= ahi ->
  inside alo ahi (find_longest_match a b b2j alo ahi blo bhi).
Proof.
  intros Hle. unfold find_longest_match.
  set (m0 := scan_is _ _ _ _ _ _ _).
  assert (H0 : inside alo ahi m0).
  { subst m0. replace (ahi - alo) with (Z.of_nat (Z.to_nat (ahi - alo))) by lia.
    replace ahi with (alo + Z.of_nat (Z.to_nat (ahi - alo))) at 1 by lia.
    apply scan_is_bounds.
    - lia.
    - apply map_Forall_empty.
    - unfold inside. simpl. lia. }
  unfold inside in H0.
  set (m1 := extend_left false a b blo _ m0).
  pose proof (extend_left_bounds false alo blo (Z.to_nat (m_a m0 - alo)) m0) as H1.
  fold m1 in H1.
  set (m2 := extend_right false a b bhi _ m1).
  pose proof (extend_right_bounds false ahi bhi
                (Z.to_nat (ahi - (m_a m1 + m_size m1))) m1) as H2.
  fold m2 in H2.
  set (m3 := extend_left true a b blo _ m2).
  pose proof (extend_left_bounds true alo blo (Z.to_nat (m_a m2 - alo)) m2) as H3.
  fold m3 in H3.
  pose proof (extend_right_bounds true ahi bhi
                (Z.to_nat (ahi - (m_a m3 + m_size m3))) m3) as H4.
  unfold inside. lia.
Qed.

Lemma blocks_loop_enough fuel : forall queue matching_blocks,
  Forall (λ '(alo, ahi, _, _), alo <= ahi) queue ->
  queue_cost queue <= Z.of_nat fuel ->
  is_Some (blocks_loop fuel a b b2j queue matching_blocks).
Proof.
  induction fuel as [|fuel IH]; intros queue acc Hq Hc.
  - destruct queue as [|[[[alo ahi] blo] bhi] queue]; [simpl; eauto|].
    inversion Hq; subst. simpl in Hc. 
    assert (0 <= queue_cost queue).
    { clear -H2. induction queue as [|[[[? ?] ?] ?] q IHq]; simpl; [lia|].
      inversion H2; subst. specialize (IHq H3). lia. }
    lia.
  - destruct queue as [|[[[alo ahi] blo] bhi] queue]; [simpl; eauto|].
    inversion Hq as [|? ? Hle Hq']; subst. simpl in Hc.
    cbn [blocks_loop].
    pose proof (find_longest_match_bounds alo ahi blo bhi Hle) as (Ha & Hb & Hk).
    set (x := find_longest_match a b b2j alo ahi blo bhi) in *.
    cbv zeta. destruct (m_size x =? 0) eqn:Ek.
    + apply IH; [assumption|lia].
    + apply Z.eqb_neq in Ek. apply IH.
      * destruct (_ && _) eqn:E2; destruct ((alo <? m_a x) && _) eqn:E1;
          repeat constructor; try assumption; lia.
      * destruct (_ && _) eqn:E2; destruct ((alo <? m_a x) && _) eqn:E1;
          simpl; lia.
Qed.

End DifflibTermination.

(** The fuel of [get_matching_blocks] is enough for every pair of
    strings: the matcher is a total function. *)
Theorem blocks_loop_terminates (a b : str) :
  is_Some (Difflib.blocks_loop (2 * length a + 1) a b (Difflib.chain_b b)
             [(0, Z.of_nat (length a), 0, Z.of_nat (length b))] []).
Proof.
  apply blocks_loop_enough.
  - repeat constructor. lia.
  - simpl. lia.
Qed.



(** ** The string primitives and the matcher on concrete inputs *)

Example split_skips_runs :
  split (lit "  hey   sathi ") = [lit "hey"; lit "sathi"].
Proof. reflexivity. Qed.

Example strip_keeps_inner : strip (lit "  hey   sathi ") = lit "hey   sathi".
Proof. reflexivity. Qed.

Example of_Z_decimal :
  of_Z 112 = lit "112" /\ of_Z (-5) = lit "-5" /\ of_Z 0 = lit "0".
Proof. repeat split; reflexivity. Qed.

Example lower_ascii : lower (lit "Hey SATHI!") = lit "hey sathi!".
Proof. reflexivity. Qed.

(** The example of the [difflib] documentation. *)
Example matching_blocks_doc :
  Difflib.get_matching_blocks (lit "abxcd") (lit "abcd")
  = [Difflib.mkMatch 0 0 2; Difflib.mkMatch 3 2 2; Difflib.mkMatch 5 4 0].
Proof. vm_compute. reflexivity. Qed.

Example ratio_doc : Difflib.ratio (lit "abcd") (lit "bcde") = 0.75%float.
Proof. vm_compute. reflexivity. Qed.

Example ratio_hello_hey :
  Difflib.ratio (lit "hello sathi") (lit "hey sathi") = 0.8%float.
Proof. vm_compute. reflexivity. Qed.

Example wake_punctuated : is_wake_word (lit "Hey, Sathi!") = 1%float.
Proof. vm_compute. reflexivity. Qed.

(** ** Normalization *)

Section Normalization.

Lemma isspace_space : isspace " "%char = true.
Proof. reflexivity. Qed.

Lemma plain_lower c : is_plain c = true -> lower_char c = c.
Proof.
  destruct c as [[] [] [] [] [] [] [] []]; vm_compute;
    intros H; try discriminate H; reflexivity.
Qed.

Lemma sub_non_plain_plain s : plain (sub_non_plain s).
Proof.
  induction s as [|c r IH]; simpl; constructor; auto.
  destruct (is_plain c) eqn:E; auto.
Qed.

Lemma lower_fix s : plain s -> lower s = s.
Proof.
  induction 1 as [|c r Hc _ IH]; simpl; [reflexivity|].
  rewrite plain_lower by assumption. now rewrite IH.
Qed.

Lemma sub_non_plain_fix s : plain s -> sub_non_plain s = s.
Proof.
  induction 1 as [|c r Hc _ IH]; simpl; [reflexivity|].
  rewrite Hc. now rewrite IH.
Qed.

Lemma sub_spaces_from_plain b s : plain s -> plain (sub_spaces_from b s).
Proof.
  intros H. revert b. induction H as [|c r Hc _ IH]; intros b; simpl.
  - constructor.
  - destruct (isspace c); [destruct b|].
    + apply IH.
    + constructor; [reflexivity|apply IH].
    + constructor; [assumption|apply IH].
Qed.

Lemma lstrip_plain s : plain s -> plain (lstrip s).
Proof.
  induction 1 as [|c r Hc Hr IH]; simpl; [constructor|].
  destruct (isspace c); [assumption|]. now constructor.
Qed.

Lemma rstrip_plain s : plain s -> plain (rstrip s).
Proof.
  induction 1 as [|c r Hc Hr IH]; simpl; [constructor|].
  revert IH. destruct (rstrip r) as [|x r']; intros IH.
  - destruct (isspace c); constructor; [assumption|constructor].
  - constructor; assumption.
Qed.

(** A character that is not white space is never stripped. *)
Lemma rstrip_cons_keep c r : isspace c = false -> rstrip (c :: r) = c :: rstrip r.
Proof. intros H. simpl. rewrite H. now destruct (rstrip r). Qed.

Lemma rstrip_cons_space c r :
  isspace c = true ->
  rstrip (c :: r) = match rstrip r with [] => [] | r' => c :: r' end.
Proof. intros H. simpl. now rewrite H. Qed.

Lemma rstrip_idem s : rstrip (rstrip s) = rstrip s.
Proof.
  induction s as [|c r IH]; [reflexivity|].
  destruct (isspace c) eqn:E.
  - rewrite (rstrip_cons_space c r E).
    destruct (rstrip r) as [|x r'] eqn:R; [reflexivity|].
    rewrite (rstrip_cons_space c (x :: r') E), IH. reflexivity.
  - rewrite !rstrip_cons_keep, IH by assumption. reflexivity.
Qed.

Lemma lstrip_head s :
  lstrip s = [] \/ exists c r, lstrip s = c :: r /\ isspace c = false.
Proof.
  induction s as [|c r IH]; simpl; [now left|].
  destruct (isspace c) eqn:E; [assumption|]. right. eauto.
Qed.

Lemma lstrip_rstrip_lstrip s : lstrip (rstrip (lstrip s)) = rstrip (lstrip s).
Proof.
  destruct (lstrip_head s) as [->|(c & r & -> & Hc)]; [reflexivity|].
  rewrite rstrip_cons_keep by assumption. simpl. now rewrite Hc.
Qed.

Lemma strip_idem s : strip (strip s) = strip s.
Proof. unfold strip. now rewrite lstrip_rstrip_lstrip, rstrip_idem. Qed.

Lemma sub_spaces_from_cons b c r :
  sub_spaces_from b (c :: r)
  = if isspace c
    then (if b then sub_spaces_from true r else " "%char :: sub_spaces_from true r)
    else c :: sub_spaces_from false r.
Proof. reflexivity. Qed.

Lemma lstrip_sub_spaces_from b s :
  lstrip (sub_spaces_from b s) = sub_spaces_from false (lstrip s).
Proof.
  revert b. induction s as [|c r IH]; intros b; [reflexivity|].
  simpl. destruct (isspace c) eqn:E.
  - destruct b; [apply IH|]. simpl. apply IH.
  - simpl. now rewrite E.
Qed.

Lemma sub_spaces_from_rstrip_nonempty b r :
  rstrip r <> [] -> sub_spaces_from b (rstrip r) <> [].
Proof.
  revert b. induction r as [|c r IH]; intros b; [simpl; congruence|].
  destruct (isspace c) eqn:E.
  - rewrite (rstrip_cons_space c r E).
    destruct (rstrip r) as [|x r'] eqn:R; [congruence|].
    intros _. rewrite sub_spaces_from_cons, E.
    destruct b; [|discriminate]. apply IH. discriminate.
  - rewrite rstrip_cons_keep by assumption.
    intros _. rewrite sub_spaces_from_cons, E. discriminate.
Qed.

Lemma rstrip_sub_spaces_from b s :
  rstrip (sub_spaces_from b s) = sub_spaces_from b (rstrip s).
Proof.
  revert b. induction s as [|c r IH]; intros b; [reflexivity|].
  destruct (isspace c) eqn:E.
  - rewrite (rstrip_cons_space c r E). rewrite sub_spaces_from_cons, E.
    pose proof (sub_spaces_from_rstrip_nonempty true r) as N.
    destruct (rstrip r) as [|x r'] eqn:R.
    + destruct b.
      * rewrite IH. reflexivity.
      * rewrite (rstrip_cons_space _ _ isspace_space), IH. reflexivity.
    + rewrite sub_spaces_from_cons, E.
      destruct b; [apply IH|].
      rewrite (rstrip_cons_space _ _ isspace_space), IH.
      destruct (sub_spaces_from true (x :: r')); [|reflexivity].
      exfalso. apply N; [discriminate|reflexivity].
  - rewrite sub_spaces_from_cons, E.
    rewrite !rstrip_cons_keep by assumption.
    rewrite sub_spaces_from_cons, E, IH. reflexivity.
Qed.

Lemma sub_spaces_from_idem b s :
  sub_spaces_from b (sub_spaces_from b s) = sub_spaces_from b s.
Proof.
  revert b. induction s as [|c r IH]; intros b; [reflexivity|].
  rewrite (sub_spaces_from_cons b c r). destruct (isspace c) eqn:E.
  - destruct b; [apply IH|].
    rewrite sub_spaces_from_cons, isspace_space, IH. reflexivity.
  - rewrite sub_spaces_from_cons, E, IH. reflexivity.
Qed.

(** Both normalizations agree: stripping and collapsing commute. *)
Lemma normalize_wake_text p : normalize_wake p = normalize_text p.
Proof.
  unfold normalize_wake, normalize_text, strip, sub_spaces.
  now rewrite <- rstrip_sub_spaces_from, lstrip_sub_spaces_from.
Qed.

Lemma normalize_text_plain p : plain (normalize_text p).
Proof.
  unfold normalize_text, strip, sub_spaces.
  apply rstrip_plain, lstrip_plain, sub_spaces_from_plain, sub_non_plain_plain.
Qed.

Lemma normalize_text_idem p : normalize_text (normalize_text p) = normalize_text p.
Proof.
  unfold normalize_text at 1.
  rewrite lower_fix, sub_non_plain_fix by apply normalize_text_plain.
  unfold normalize_text, sub_spaces, strip.
  set (u := sub_non_plain (lower p)).
  rewrite <- (rstrip_sub_spaces_from false (lstrip (sub_spaces_from false u))).
  rewrite <- (lstrip_sub_spaces_from false (sub_spaces_from false u)).
  rewrite sub_spaces_from_idem, lstrip_rstrip_lstrip.
  apply rstrip_idem.
Qed.

End Normalization.

(** [lower] moves no character into or out of the white space. *)
Lemma isspace_lower_char c : isspace (lower_char c) = isspace c.
Proof. destruct c as [[] [] [] [] [] [] [] []]; reflexivity. Qed.


(** ** The wake scorer *)

(** C4.  A wake phrase that is not empty once normalized, scored in its
    normalized form against the phrase list that holds only it, gets
    exactly 1.0: the exact-match test of the first tier returns. *)
Theorem is_wake_word_exact (p : str) (span_threshold token_threshold : float) :
  normalize_text p <> [] ->
  is_wake_word_in [p] (normalize_text p) span_threshold token_threshold
  = 1%float.
Proof.
  intros Hne. unfold is_wake_word_in.
  destruct (normalize_text p) as [|c r] eqn:Hp; [congruence|].
  cbn [falsy]. rewrite <- Hp, normalize_text_idem.
  cbn [wake_loop]. unfold wake_body.
  rewrite normalize_wake_text, Hp. cbn [falsy].
  unfold eqb. rewrite bool_decide_eq_true_2 by reflexivity. reflexivity.
Qed.

Lemma is_wake_word_exact_witness :
  normalize_text (lit " Hey,  SATHI! ") <> []
  /\ is_wake_word_in [lit " Hey,  SATHI! "] (normalize_text (lit " Hey,  SATHI! "))
       0.65%float 0.85%float = 1%float.
Proof.
  split.
  - vm_compute. discriminate.
  - apply (is_wake_word_exact (lit " Hey,  SATHI! ")). vm_compute. discriminate.
Defined.

(** C8.  Over the configured phrase list the score depends on the order
    of the phrases: the configured phrase "hello sathi", heard verbatim,
    scores 0.8 and not 1.0.  The first phrase, "hey sathi", neither
    equals it, nor occurs in it, nor has all its tokens in it; its one
    window has ratio 0.8, which reaches the span threshold 0.65 and
    returns, although scored against "hello sathi" alone the text is an
    exact match. *)
Theorem is_wake_word_order_dependent :
  In (lit "hello sathi") WAKE_WORDS
  /\ is_wake_word (lit "hello sathi") = 0.8%float
  /\ PrimFloat.ltb 0.8%float 1%float = true
  /\ wake_body (lit "hello sathi") [lit "hello"; lit "sathi"]
       0.65%float 0.85%float (lit "hey sathi") 0%float = Return 0.8%float
  /\ window_loop [lit "hello"; lit "sathi"] (lit "hey sathi") 2 0.65%float
       [0] 0%float = Return 0.8%float
  /\ PrimFloat.leb 0.65%float 0.8%float = true
  /\ is_wake_word_in [lit "hello sathi"] (lit "hello sathi") 0.65%float 0.85%float
     = 1%float.
Proof.
  split; [|repeat split; vm_compute; reflexivity].
  unfold WAKE_WORDS. do 4 right. left. reflexivity.
Qed.

(** ** The intent classifier *)

Import Calendar.

Example patterns_compile :
  forallb (λ p, bool_decide (is_Some (Re.compile p)))
    (TIME_PATTERNS ++ DATE_PATTERNS ++ DAY_PATTERNS ++ CALENDAR_PATTERNS) = true.
Proof. vm_compute. reflexivity. Qed.

Example search_optional_group :
  Re.search (lit "what(?:'s| is) (?:the )?date(?:.*?today)?") (lit "so what's date")
  = true
  /\ Re.search (lit "what time (is it|do we have)") (lit "what time do we") = false.
Proof. split; vm_compute; reflexivity. Qed.

Example date_response_example :
  (get_current_date clock_example).1 = lit "Today is Wednesday, November 4th, 2026"
  /\ (get_current_time clock_example).1 = lit "It's 8 oh 5 pm".
Proof. split; vm_compute; reflexivity. Qed.

Section Classifier.

Variable clock : exn datetime.

Lemma process_time_query_nonempty text :
  text <> [] ->
  process_time_query clock text
  = try_ (try_ (intent_chain clock (strip (lower text))) (Ok (Some INTENT_ERROR)))
      (Ok (Some SYSTEM_ERROR)).
Proof. destruct text; [congruence|reflexivity]. Qed.

Lemma strip_lower_blank text :
  Forall (λ c, isspace c = true) text -> strip (lower text) = [].
Proof.
  unfold strip. induction 1 as [|c r Hc _ IH]; [reflexivity|].
  cbn [lower map lstrip]. rewrite isspace_lower_char, Hc. exact IH.
Qed.

(** C3 (as amended).  [process_time_query] is total and never raises:
    whatever the clock does and whatever the text is, it returns, and
    what it returns is [None], the response of one of the four
    formatters, or one of its fixed apology pairs.  For the empty
    string it returns the pair [EMPTY_QUERY], not [None]; every text
    that is not empty and holds white space only gets [None], three
    spaces for one. *)
Theorem process_time_query_total :
  (forall text, exists r,
      process_time_query clock text = Ok r
      /\ (r = None
          \/ r = Some (get_current_date clock)
          \/ r = Some (get_current_time clock)
          \/ (exists d, get_current_day clock = Ok d /\ r = Some d)
          \/ (exists m, get_month_calendar clock = Ok m /\ r = Some m)
          \/ r = Some INTENT_ERROR
          \/ r = Some EMPTY_QUERY))
  /\ process_time_query clock (lit "") = Ok (Some EMPTY_QUERY)
  /\ (forall text,
        text <> [] -> Forall (λ c, isspace c = true) text ->
        process_time_query clock text = Ok None)
  /\ process_time_query clock (lit "   ") = Ok None.
Proof.
  split; [|split; [reflexivity|split; [|reflexivity]]];
    [|intros text Hne Hws;
      rewrite process_time_query_nonempty, (strip_lower_blank text Hws)
        by assumption;
      vm_compute; reflexivity].
  intros [|c text'].
  - exists (Some EMPTY_QUERY). split; [reflexivity|]. do 6 right. reflexivity.
  - rewrite process_time_query_nonempty by discriminate.
    generalize (strip (lower (c :: text'))). intros t. unfold intent_chain.
    destruct (detect_date_intent t); [eexists; split; [reflexivity|auto]|].
    destruct (detect_time_intent t); [eexists; split; [reflexivity|auto]|].
    destruct (detect_day_intent t).
    { destruct (get_current_day clock) as [r|] eqn:E; simpl.
      - exists (Some r). split; [reflexivity|]. do 3 right. left. eauto.
      - exists (Some INTENT_ERROR). split; [reflexivity|]. do 5 right. left. reflexivity. }
    destruct (detect_calendar_intent t).
    { destruct (get_month_calendar clock) as [r|] eqn:E; simpl.
      - exists (Some r). split; [reflexivity|]. do 4 right. left. eauto.
      - exists (Some INTENT_ERROR). split; [reflexivity|]. do 5 right. left. reflexivity. }
    destruct (any_word_in _ t); [eexists; split; [reflexivity|auto]|].
    destruct (any_word_in _ t); [eexists; split; [reflexivity|auto]|].
    eexists; split; [reflexivity|auto].
Qed.

(** C5.  The pattern groups are tried in the order Date, Time, Day,
    Calendar, and the keyword fallback in the order Date, Time: a text
    that the Date patterns match gets the date response whatever else
    matches, the Time patterns are consulted only when Date fails, and
    so on down the chain. *)
Theorem intent_precedence (text : str) :
  let t := strip (lower text) in
  let result := process_time_query clock text in
  (detect_date_intent t = true -> result = Ok (Some (get_current_date clock)))
  /\ (detect_date_intent t = false -> detect_time_intent t = true ->
      result = Ok (Some (get_current_time clock)))
  /\ (detect_date_intent t = false -> detect_time_intent t = false ->
      detect_day_intent t = true ->
      result = try_ (bind_exn (get_current_day clock) (λ r, Ok (Some r)))
                 (Ok (Some INTENT_ERROR)))
  /\ (detect_date_intent t = false -> detect_time_intent t = false ->
      detect_day_intent t = false -> detect_calendar_intent t = true ->
      result = try_ (bind_exn (get_month_calendar clock) (λ r, Ok (Some r)))
                 (Ok (Some INTENT_ERROR)))
  /\ (detect_date_intent t = false -> detect_time_intent t = false ->
      detect_day_intent t = false -> detect_calendar_intent t = false ->
      (any_word_in [lit "date"; lit "today"; lit "day"; lit "month"] t = true ->
       result = Ok (Some (get_current_date clock)))
      /\ (any_word_in [lit "date"; lit "today"; lit "day"; lit "month"] t = false ->
          any_word_in [lit "time"; lit "clock"; lit "hour"] t = true ->
          result = Ok (Some (get_current_time clock)))).
Proof.
  intros t result. subst result.
  destruct (decide (text = [])) as [->|Hne].
  { subst t. split; [|split; [|split; [|split; [|intros _ _ _ _; split]]]];
      intros;
      match goal with
      | H : _ = true |- _ => vm_compute in H; discriminate H
      end. }
  rewrite process_time_query_nonempty by assumption. fold t. unfold intent_chain.
  split; [|split; [|split; [|split]]].
  - intros H1. rewrite H1. reflexivity.
  - intros H1 H2. rewrite H1, H2. reflexivity.
  - intros H1 H2 H3. rewrite H1, H2, H3.
    destruct (get_current_day clock); reflexivity.
  - intros H1 H2 H3 H4. rewrite H1, H2, H3, H4.
    destruct (get_month_calendar clock); reflexivity.
  - intros H1 H2 H3 H4. rewrite H1, H2, H3, H4. split.
    + intros H5. rewrite H5. reflexivity.
    + intros H5 H6. rewrite H5, H6. reflexivity.
Qed.

(** C9.  The keyword fallback looks for its words anywhere in the
    lowered text, inside longer words too: a text that no pattern group
    matches and that has "date", "today", "day" or "month" as a run of
    characters gets the current-date response, not [None]. *)
Theorem keyword_fallback_is_substring (text : str) :
  let t := strip (lower text) in
  detect_date_intent t = false -> detect_time_intent t = false ->
  detect_day_intent t = false -> detect_calendar_intent t = false ->
  contains (lit "date") t = true \/ contains (lit "today") t = true
  \/ contains (lit "day") t = true \/ contains (lit "month") t = true ->
  process_time_query clock text = Ok (Some (get_current_date clock))
  /\ process_time_query clock text <> Ok None.
Proof.
  intros t Hd Ht Hy Hc Hw.
  assert (Hne : text <> []).
  { intros ->. subst t. vm_compute in Hw. intuition discriminate. }
  assert (E : process_time_query clock text = Ok (Some (get_current_date clock))).
  { rewrite process_time_query_nonempty by assumption. fold t. unfold intent_chain.
    rewrite Hd, Ht, Hy, Hc.
    assert (W : any_word_in [lit "date"; lit "today"; lit "day"; lit "month"] t = true).
    { unfold any_word_in. cbn [existsb].
      destruct Hw as [ -> | [ -> | [ -> | -> ] ] ]; rewrite ?orb_true_r; reflexivity. }
    rewrite W. reflexivity. }
  split; [exact E|]. rewrite E. discriminate.
Qed.

End Classifier.

(** The empty query is answered with a response pair, so the statement
    that the classifier maps the empty string to [None] fails. *)
Lemma process_time_query_empty_not_None :
  process_time_query clock_example (lit "") <> Ok None.
Proof. vm_compute. discriminate. Qed.

Lemma intent_precedence_witness :
  lit "what date and time is it" <> []
  /\ detect_date_intent (strip (lower (lit "what date and time is it"))) = true
  /\ process_time_query clock_example (lit "what date and time is it")
     = Ok (Some (get_current_date clock_example))
  /\ get_current_date clock_example <> get_current_time clock_example.
Proof.
  assert (Hne : lit "what date and time is it" <> []) by (vm_compute; discriminate).
  assert (Hd : detect_date_intent (strip (lower (lit "what date and time is it"))) = true)
    by (vm_compute; reflexivity).
  split; [exact Hne|]. split; [exact Hd|]. split.
  - exact (proj1 (intent_precedence clock_example _) Hd).
  - vm_compute. discriminate.
Defined.

(** Both the Date and the Time patterns match "what is the time and
    date"; Date is tried first. *)
Example date_before_time :
  detect_date_intent (lit "what is the time and date") = true
  /\ detect_time_intent (lit "what is the time and date") = true
  /\ process_time_query clock_example (lit "what is the time and date")
     = Ok (Some (get_current_date clock_example)).
Proof. repeat split; vm_compute; reflexivity. Qed.

Lemma keyword_fallback_is_substring_witness :
  lit "Happy birthday" <> []
  /\ contains (lit "day") (strip (lower (lit "Happy birthday"))) = true
  /\ process_time_query clock_example (lit "Happy birthday")
     = Ok (Some (get_current_date clock_example))
  /\ process_time_query clock_example (lit "Happy birthday") <> Ok None.
Proof.
  assert (Hw : contains (lit "day") (strip (lower (lit "Happy birthday"))) = true)
    by (vm_compute; reflexivity).
  split; [vm_compute; discriminate|]. split; [exact Hw|].
  apply (keyword_fallback_is_substring clock_example (lit "Happy birthday"));
    try (vm_compute; reflexivity).
  right. right. left. exact Hw.
Defined.

Example holidays_is_date :
  process_time_query clock_example (lit "we love the holidays")
  = Ok (Some (get_current_date clock_example)).
Proof. vm_compute. reflexivity. Qed.

(** ** The ordinal suffix *)

(** C6.  For a positive day the result is the decimal numeral of the
    day followed by the suffix of the rule: "th" when [day mod 100] is
    in [10,20], else by the last digit; so 1st, 11th, 21st, 112th. *)
Theorem get_ordinal_suffix_rule (day : Z) :
  0 < day ->
  get_ordinal_suffix day = of_Z day ++ ordinal_suffix_rule day
  /\ get_ordinal_suffix 1 = lit "1st"
  /\ get_ordinal_suffix 11 = lit "11th"
  /\ get_ordinal_suffix 21 = lit "21st"
  /\ get_ordinal_suffix 112 = lit "112th".
Proof.
  intros _. split; [|repeat split; vm_compute; reflexivity].
  unfold get_ordinal_suffix, ordinal_suffix_rule. f_equal.
  destruct (Z.leb_spec 10 (day mod 100)), (Z.leb_spec (day mod 100) 20);
    cbn [andb]; case_bool_decide; try lia; try reflexivity.
  all: destruct (decide (day mod 10 = 1)) as [E1|N1];
    [rewrite E1; reflexivity|rewrite (bool_decide_eq_false_2 _ N1)].
  all: destruct (decide (day mod 10 = 2)) as [E2|N2];
    [rewrite E2; reflexivity|rewrite (bool_decide_eq_false_2 _ N2)].
  all: destruct (decide (day mod 10 = 3)) as [E3|N3];
    [rewrite E3; reflexivity|rewrite (bool_decide_eq_false_2 _ N3)].
  all: rewrite !lookup_insert_ne, lookup_singleton_ne by (symmetry; assumption).
  all: reflexivity.
Qed.

Lemma get_ordinal_suffix_rule_witness :
  0 < 23
  /\ get_ordinal_suffix 23 = of_Z 23 ++ ordinal_suffix_rule 23
  /\ get_ordinal_suffix 23 = lit "23rd".
Proof.
  split; [lia|]. split.
  - apply (get_ordinal_suffix_rule 23). lia.
  - vm_compute. reflexivity.
Defined.

(** ** Speech synthesis *)

Import Tts.

Lemma select_voice_none use_male_voice vs :
  Forall (λ v, matches_profile use_male_voice (lower (voice_name v)) = false) vs ->
  select_voice use_male_voice vs = None.
Proof.
  induction 1 as [|v vs Hv _ IH]; simpl; [reflexivity|]. now rewrite Hv.
Qed.

(** Runs one more call of a straight-line body: the call raises and the
    handler takes over, or it returns and the body goes on. *)
Ltac step_call h :=
  match goal with
  | |- context [raises h ?e] => destruct (raises h e) eqn:?
  end.

Ltac run_body :=
  unfold run, try_m, call, mbind, M_bind, mret, M_ret; cbn [app fst snd].

(** C7.  With at least one voice installed and none matching the
    requested profile, both synthesis functions select the first voice
    of the list and go on to speak.  On a machine where no call raises
    the text is spoken (or saved) with that voice and the call
    succeeds; on any machine [speak_text] issues its calls in this order
    up to the first one that raises, so it fails only when a call
    raises, never for the missing profile. *)
Theorem speech_falls_back_to_first_voice
    (h : Host) (text : str) (use_male_voice : bool)
    (first : Voice) (rest : list Voice) (output_dir : str) :
  text <> [] ->
  voices h = first :: rest ->
  Forall (λ v, matches_profile use_male_voice (lower (voice_name v)) = false)
    (voices h) ->
  let spoken :=
    [EngineInit; SetRate 150; SetVolume 0.9%float; GetVoices;
     SetVoice (voice_id first); Say text; RunAndWait] in
  let output_file :=
    path_join h output_dir (lit "response_" ++ timestamp h ++ lit ".wav") in
  ((forall e, raises h e = false) ->
   run (speak_text h text use_male_voice) = (spoken, Ok (Some true)))
  /\ ((forall e, raises h e = false) ->
      run (text_to_speech h text output_dir use_male_voice)
      = ([MakeDirs output_dir; EngineInit; SetRate 120; SetVolume 0.9%float;
          GetVoices; SetVoice (voice_id first); SaveToFile text output_file;
          RunAndWait],
         Ok (Some output_file)))
  /\ (run (speak_text h text use_male_voice)).1 `prefix_of` spoken
  /\ ((run (speak_text h text use_male_voice)).2 = Ok (Some true)
      \/ (run (speak_text h text use_male_voice)).2 = Ok (Some false)
         /\ Exists (λ e, raises h e = true) (run (speak_text h text use_male_voice)).1)
  /\ (Forall (λ e, raises h e = false)
        [EngineInit; SetRate 150; SetVolume 0.9%float; GetVoices;
         SetVoice (voice_id first)] ->
      In (Say text) (run (speak_text h text use_male_voice)).1).
Proof.
  intros Hne Hv Hnone spoken output_file.
  pose proof (select_voice_none _ _ Hnone) as Hsel.
  destruct text as [|c text']; [congruence|].
  set (t := c :: text') in *.
  unfold speak_text, text_to_speech. cbn [falsy]. rewrite Hsel, Hv.
  cbn [truthy]. subst spoken. fold output_file.
  split; [|split; [|split; [|split]]].
  - intros Hr. run_body. rewrite !Hr. reflexivity.
  - intros Hr. run_body. rewrite !Hr. reflexivity.
  - run_body. repeat step_call h; cbn [fst];
      match goal with |- ?l `prefix_of` ?l' =>
        eexists; cbn [app]; reflexivity end.
  - run_body. repeat step_call h; cbn [fst snd];
      first [left; reflexivity
            | right; split; [reflexivity|];
              repeat first [apply Exists_cons_hd; assumption | apply Exists_cons_tl]].
  - intros Hok. repeat match goal with
                       | H : Forall _ (_ :: _) |- _ => apply Forall_cons in H; destruct H
                       end.
    run_body.
    repeat match goal with
           | H : raises h ?e = false |- context [raises h ?e] => rewrite H
           end.
    step_call h; [|step_call h]; cbn [fst]; simpl; tauto.
Qed.

Lemma speech_falls_back_to_first_voice_witness :
  lit "Hello dear" <> []
  /\ run (speak_text host_example (lit "Hello dear") true)
     = ([EngineInit; SetRate 150; SetVolume 0.9%float; GetVoices;
         SetVoice (lit "voice.hazel"); Say (lit "Hello dear"); RunAndWait],
        Ok (Some true)).
Proof.
  assert (Hne : lit "Hello dear" <> []) by (vm_compute; discriminate).
  split; [exact Hne|].
  refine (proj1 (speech_falls_back_to_first_voice host_example (lit "Hello dear") true
                   (mkVoice (lit "voice.hazel") (lit "Microsoft Hazel Desktop"))
                   [mkVoice (lit "voice.susan") (lit "Microsoft Susan")]
                   (lit "data/audio") Hne eq_refl _) _).
  - repeat constructor.
  - intros e. reflexivity.
Defined.

(** C10.  [speak_text] never raises, and its result is not always a
    boolean.  It returns [True] only after [say] and [runAndWait] were
    called and no call raised.  For the empty text it makes no call and
    returns [None]; with no voice installed it never calls [say] and,
    when the engine starts, returns [None] as well - [False] is returned
    only from the exception handler. *)
Theorem speak_text_result (h : Host) (text : str) (use_male_voice : bool) :
  let tr := (run (speak_text h text use_male_voice)).1 in
  let r := (run (speak_text h text use_male_voice)).2 in
  r <> Raise
  /\ (r = Ok (Some true) ->
      text <> [] /\ In (Say text) tr /\ last tr = Some RunAndWait
      /\ Forall (λ e, raises h e = false) tr)
  /\ (text = [] -> tr = [] /\ r = Ok None)
  /\ (text <> [] -> voices h = [] ->
      (forall t, ~ In (Say t) tr)
      /\ (r = Ok None \/ r = Ok (Some false))
      /\ (Forall (λ e, raises h e = false)
            [EngineInit; SetRate 150; SetVolume 0.9%float; GetVoices] ->
          r = Ok None))
  /\ (r = Ok (Some false) -> Exists (λ e, raises h e = true) tr).
Proof.
  intros tr r. subst tr r.
  destruct text as [|c text'].
  { cbn. split; [discriminate|]. split; [discriminate|].
    split; [intros _; split; reflexivity|].
    split; [intros H; contradiction H; reflexivity|discriminate]. }
  unfold speak_text. cbn [falsy].
  destruct (voices h) as [|first rest] eqn:Hv; run_body.
  - repeat step_call h; cbn [fst snd].
    all: split; [discriminate|].
    all: split; [discriminate|].
    all: split; [discriminate|].
    all: split;
      [intros _ _; split; [intros t; simpl; intuition discriminate|];
       split; [tauto|]; intros Hok;
       repeat match goal with
              | H : Forall _ (_ :: _) |- _ => apply Forall_cons in H; destruct H
              end; congruence|].
    all: first [discriminate
               | intros _;
                 repeat first [apply Exists_cons_hd; assumption | apply Exists_cons_tl]].
  - destruct (truthy (select_voice use_male_voice (first :: rest)));
      repeat step_call h; cbn [fst snd].
    all: split; [discriminate|].
    all: split;
      [first [discriminate
             | intros _; split; [discriminate|]; split; [simpl; tauto|];
               split; [reflexivity|]; repeat constructor; assumption]|].
    all: split; [discriminate|].
    all: split; [intros _ H; discriminate H|].
    all: first [discriminate
               | intros _;
                 repeat first [apply Exists_cons_hd; assumption | apply Exists_cons_tl]].
Qed.

Example speak_text_none :
  run (speak_text host_example (lit "") true) = ([], Ok None)
  /\ run (speak_text host_no_voice (lit "Hello dear") true)
     = ([EngineInit; SetRate 150; SetVolume 0.9%float; GetVoices], Ok None).
Proof. split; reflexivity. Qed.

(** ** The interaction *)

Lemma try_m_returns {A} (body handler : M A) tr :
  (forall tr', exists tr2 a, handler tr' = (tr2, Ok a)) ->
  exists tr2 a, try_m body handler tr = (tr2, Ok a).
Proof.
  intros Hh. unfold try_m. destruct (body tr) as [tr' [a|]]; eauto.
Qed.


Lemma speak_text_returns h text male tr :
  exists tr2 r, Tts.speak_text h text male tr = (tr2, Ok r).
Proof.
  unfold Tts.speak_text. destruct (falsy text); [eexists _, _; reflexivity|].
  apply try_m_returns. intros tr'. eexists _, _. reflexivity.
Qed.

Lemma text_to_speech_returns h text dir male tr :
  exists tr2 r, Tts.text_to_speech h text dir male tr = (tr2, Ok r).
Proof.
  unfold Tts.text_to_speech.
  apply try_m_returns. intros tr'. eexists _, _. reflexivity.
Qed.



(** C2 (as amended).  An utterance that the classifier maps to [None]
    goes to the remote model.  When the model raises, the exception is
    caught and [sathi_interaction] returns normally, but nothing is
    spoken: after the recording, the transcription and the request to
    the model no further call is made.  When the model answers, its
    answer is handed to [speak_text] and then to [text_to_speech]. *)
Theorem responder_failure_is_silent (w : World) (audio heard : str) :
  audio <> [] -> heard <> [] ->
  Calendar.process_time_query (clock w) heard = Ok None ->
  let full_prompt := SYSTEM_PROMPT ++ newline ++ lit "User: " ++ heard in
  let asked :=
    [RecordAudio 8 (lit "data/audio/audio.wav"); Transcribe (Some audio);
     GenerateContent full_prompt] in
  (model w full_prompt = Raise ->
   run (sathi_interaction w (Some audio) (Some heard)) = (asked, Ok ())
   /\ Forall (λ e, is_speech e = false)
        (run (sathi_interaction w (Some audio) (Some heard))).1)
  /\ (forall response, model w full_prompt = Ok response ->
      run (sathi_interaction w (Some audio) (Some heard))
      = (Tts.speak_text (host w) response true;;
         Tts.text_to_speech (host w) response AUDIO_DIR true;;
         mret ()) asked).
Proof.
  intros Ha Hh Hq full_prompt asked.
  assert (E : forall r,
             model w full_prompt = r ->
             run (sathi_interaction w (Some audio) (Some heard))
             = match r with
               | Ok response =>
                   (Tts.speak_text (host w) response true;;
                    Tts.text_to_speech (host w) response AUDIO_DIR true;;
                    mret ()) asked
               | Raise => (asked, Ok ())
               end).
  { intros r Hr. subst asked.
    destruct audio as [|a0 audio']; [congruence|].
    destruct heard as [|h0 heard']; [congruence|].
    unfold run, sathi_interaction, record_audio, transcribe_audio, query_gemma,
      try_m, lift, mbind, M_bind, mret, M_ret.
    cbn [falsy_opt app from_option id].
    rewrite Hq. cbn [speak_time_response].
    fold full_prompt. rewrite Hr. destruct r; reflexivity. }
  split.
  - intros Hr. rewrite (E _ Hr). split; [reflexivity|]. repeat constructor.
  - intros response Hr. exact (E _ Hr).
Qed.

Lemma responder_failure_is_silent_witness :
  lit "data/audio/audio.wav" <> [] /\ lit "tell me a story" <> []
  /\ Calendar.process_time_query (clock world_model_down) (lit "tell me a story")
     = Ok None
  /\ run (sathi_interaction world_model_down
            (Some (lit "data/audio/audio.wav")) (Some (lit "tell me a story")))
     = ([RecordAudio 8 (lit "data/audio/audio.wav");
         Transcribe (Some (lit "data/audio/audio.wav"));
         GenerateContent
           (SYSTEM_PROMPT ++ newline ++ lit "User: " ++ lit "tell me a story")],
        Ok ()).
Proof.
  assert (Ha : lit "data/audio/audio.wav" <> []) by (vm_compute; discriminate).
  assert (Hh : lit "tell me a story" <> []) by (vm_compute; discriminate).
  assert (Hq : Calendar.process_time_query (clock world_model_down)
                 (lit "tell me a story") = Ok None) by (vm_compute; reflexivity).
  split; [exact Ha|]. split; [exact Hh|]. split; [exact Hq|].
  exact (proj1 (proj1 (responder_failure_is_silent world_model_down _ _ Ha Hh Hq)
                  eq_refl)).
Defined.

(** With the remote model out of reach the interaction ends without a
    spoken response and without the apology the specification asks for. *)
Lemma responder_failure_not_spoken :
  ~ Exists (λ e, is_speech e = true)
      (run (sathi_interaction world_model_down
              (Some (lit "data/audio/audio.wav")) (Some (lit "tell me a story")))).1.
Proof.
  vm_compute. intros H.
  repeat match goal with
         | H : Exists _ (_ :: _) |- _ => apply Exists_cons in H; destruct H as [H|H]
         | H : Exists _ [] |- _ => apply Exists_nil in H; destruct H
         | H : false = true |- _ => discriminate H
         end.
Qed.

Example responder_answer_is_spoken :
  filter (λ e, is_speech e = true)
    (run (sathi_interaction world_model_up
            (Some (lit "data/audio/audio.wav")) (Some (lit "tell me a story")))).1
  = [Say (lit "Please drink some water.");
     SaveToFile (lit "Please drink some water.")
       (lit "data/audio/response_20261104_200500.wav")].
Proof. vm_compute. reflexivity. Qed.

(** ** The wake loop *)

(** The first test of the loop body leaves the iteration on both of its
    branches: it never falls through to the statements after it. *)
Lemma first_block_never_falls (w : World) (pick : nat) (score : float) tr :
  (first_block w pick score tr).2 <> Ok Fall.
Proof.
  unfold first_block. destruct (PrimFloat.leb _ _); [|discriminate].
  unfold greet, mbind, M_bind.
  destruct (speak_text_returns (host w)
              (nth (Nat.modulo pick (length SATHI_GREETINGS)) SATHI_GREETINGS [])
              true tr) as (tr1 & r1 & ->).
  destruct (text_to_speech_returns (host w)
              (nth (Nat.modulo pick (length SATHI_GREETINGS)) SATHI_GREETINGS [])
              AUDIO_DIR true tr1) as (tr2 & r2 & ->).
  discriminate.
Qed.

(** One pass of the wake loop decides on the single cutoff 0.70: below
    it the utterance is discarded with no call to the speech engine, so
    no confirmation is ever asked for; from it on the greeting is spoken
    and the loop is left.  The two-tier block that follows in the source
    is never reached. *)
Theorem wake_iteration_single_cutoff
    (w : World) (pick : nat) (audio confirm_audio confirm_heard : option str)
    (heard : str) :
  heard <> [] ->
  let score := is_wake_word (strip heard) in
  let listened :=
    [RecordAudio 5 (lit "data/audio/listen.wav"); Transcribe audio] in
  (PrimFloat.leb 0.70%float score = false ->
   run (wake_iteration w pick audio (Some heard) confirm_audio confirm_heard)
   = (listened, Ok Continue))
  /\ (PrimFloat.leb 0.70%float score = true ->
      run (wake_iteration w pick audio (Some heard) confirm_audio confirm_heard)
      = (greet w pick;; mret Break) listened).
Proof.
  intros Hne score listened.
  assert (E : run (wake_iteration w pick audio (Some heard)
                     confirm_audio confirm_heard)
              = (first_block w pick score
                 ≫= λ fl, match fl with
                          | Fall => second_block w pick score confirm_audio confirm_heard
                          | _ => mret fl
                          end) listened).
  { subst score. destruct heard as [|h0 heard']; [congruence|reflexivity]. }
  rewrite E. clear E. unfold first_block.
  split; intros Hs; rewrite Hs.
  - reflexivity.
  - unfold mbind at 1, M_bind at 1.
    destruct ((greet w pick ≫= λ _ : (), mret Break) listened) as [tr [fl|]] eqn:E;
      [|reflexivity].
    unfold mbind, M_bind in E.
    destruct (greet w pick listened) as [tr' [[]|]]; [|discriminate].
    injection E as <- <-. reflexivity.
Qed.

Lemma wake_iteration_single_cutoff_witness :
  lit "sadhu" <> []
  /\ PrimFloat.leb 0.70%float (is_wake_word (strip (lit "sadhu"))) = false
  /\ run (wake_iteration world_model_down 0 (Some (lit "data/audio/listen.wav"))
            (Some (lit "sadhu")) None None)
     = ([RecordAudio 5 (lit "data/audio/listen.wav");
         Transcribe (Some (lit "data/audio/listen.wav"))], Ok Continue).
Proof.
  assert (Hne : lit "sadhu" <> []) by (vm_compute; discriminate).
  assert (Hs : PrimFloat.leb 0.70%float (is_wake_word (strip (lit "sadhu"))) = false)
    by (vm_compute; reflexivity).
  split; [exact Hne|]. split; [exact Hs|].
  exact (proj1 (wake_iteration_single_cutoff world_model_down 0
                  (Some (lit "data/audio/listen.wav")) None None (lit "sadhu") Hne) Hs).
Defined.

(** C1, on the code.  The utterance "sadhu" scores 0.6, inside the
    confirmation band [0.55, 0.9).  The pass of the wake loop that hears
    it makes no call to the speech engine and starts the next iteration:
    the machine was never in AwaitingConfirmation and is in Idle again.
    The second block of the loop body, had it been reached with this
    score, would have spoken the confirmation prompt.  And "hello
    sathi", which scores 0.8, below 0.9, leads straight to Conversing. *)
Theorem wake_iteration_borderline_discarded :
  let heard_sadhu :=
    run (wake_iteration world_model_down 0 (Some (lit "data/audio/listen.wav"))
           (Some (lit "sadhu")) (Some (lit "data/audio/confirm.wav"))
           (Some (lit "yes please"))) in
  let heard_hello :=
    run (wake_iteration world_model_down 0 (Some (lit "data/audio/listen.wav"))
           (Some (lit "hello sathi")) None None) in
  is_wake_word (strip (lit "sadhu")) = 0.6%float
  /\ PrimFloat.leb 0.55%float 0.6%float = true
  /\ PrimFloat.ltb 0.6%float 0.9%float = true
  /\ heard_sadhu
     = ([RecordAudio 5 (lit "data/audio/listen.wav");
         Transcribe (Some (lit "data/audio/listen.wav"))], Ok Continue)
  /\ awaited_confirmation heard_sadhu.1 = false
  /\ from_option state_after Idle (match heard_sadhu.2 with Ok fl => Some fl | Raise => None end)
     = Idle
  /\ awaited_confirmation
       (run (second_block world_model_down 0 0.6%float
               (Some (lit "data/audio/confirm.wav")) (Some (lit "yes please")))).1
     = true
  /\ (run (second_block world_model_down 0 0.6%float
             (Some (lit "data/audio/confirm.wav")) (Some (lit "yes please")))).2
     = Ok Break
  /\ is_wake_word (strip (lit "hello sathi")) = 0.8%float
  /\ PrimFloat.ltb 0.8%float 0.9%float = true
  /\ heard_hello.2 = Ok Break
  /\ awaited_confirmation heard_hello.1 = false
  /\ existsb (is_say (nth 0 SATHI_GREETINGS [])) heard_hello.1 = true.
Proof. repeat split; vm_compute; reflexivity. Qed.

(** A session: "sadhu" (score 0.6) is passed over in silence, "hello
    sathi" (score 0.8) wakes the assistant, and the question that
    follows is answered from the clock.  The only texts spoken are the
    greeting and the date. *)
Example sathi_assistant_session :
  filter (λ e, is_any_say e = true)
    (run (sathi_assistant world_model_down
            [listen_to "sadhu"; listen_to "hello sathi";
             listen_to "what's the date today"])).1
  = [Say (nth 0 SATHI_GREETINGS []);
     Say (lit "Today is Wednesday, November 4th, 2026")].
Proof. vm_compute. reflexivity. Qed.

(** * Further properties of the sources *)

(** ** core/main.py: normalization and the scorer *)

Lemma lower_char_idem c : lower_char (lower_char c) = lower_char c.
Proof. destruct c as [[] [] [] [] [] [] [] []]; reflexivity. Qed.

Lemma lower_idem s : lower (lower s) = lower s.
Proof.
  unfold lower. rewrite map_map. apply map_ext. intros c. apply lower_char_idem.
Qed.

(** X1.  The normalized text is in normal form: it holds only
    lower-case letters, digits and spaces, has no white space at either
    end, has no run of white space left to collapse, and normalizing it
    again changes nothing. *)
Theorem normalize_text_normal_form (text : str) :
  plain (normalize_text text)
  /\ strip (normalize_text text) = normalize_text text
  /\ sub_spaces (normalize_text text) = normalize_text text
  /\ normalize_text (normalize_text text) = normalize_text text.
Proof.
  split; [apply normalize_text_plain|].
  split; [unfold normalize_text; apply strip_idem|].
  split; [|apply normalize_text_idem].
  unfold normalize_text, sub_spaces, strip.
  set (u := sub_non_plain (lower text)).
  rewrite <- (rstrip_sub_spaces_from false (lstrip (sub_spaces_from false u))).
  rewrite <- (lstrip_sub_spaces_from false (sub_spaces_from false u)).
  rewrite sub_spaces_from_idem. reflexivity.
Qed.

(** X2.  A wake phrase and a heard text are normalized by the same
    function, although the phrase is stripped before its white space is
    collapsed and the text after. *)
Theorem normalizations_agree (s : str) : normalize_wake s = normalize_text s.
Proof. apply normalize_wake_text. Qed.

(** X3.  The score does not depend on the case of the letters heard. *)
Theorem is_wake_word_ignores_case
    (wake_words : list str) (text : str) (span_threshold token_threshold : float) :
  is_wake_word_in wake_words (lower text) span_threshold token_threshold
  = is_wake_word_in wake_words text span_threshold token_threshold.
Proof.
  unfold is_wake_word_in, normalize_text. rewrite lower_idem.
  destruct text; reflexivity.
Qed.

(** X4.  A text that is not empty but normalizes to the empty string -
    punctuation and white space only - scores exactly 0.0 against the
    configured phrases: no tier fires and every ratio is 0. *)
Theorem is_wake_word_blank (text : str) :
  normalize_text text = [] -> is_wake_word text = 0%float.
Proof.
  intros H. unfold is_wake_word, is_wake_word_in. rewrite H.
  destruct text; [reflexivity|]. cbn [falsy]. vm_compute. reflexivity.
Qed.

Lemma is_wake_word_blank_witness :
  normalize_text (lit " ?! ... ") = [] /\ is_wake_word (lit " ?! ... ") = 0%float.
Proof.
  assert (H : normalize_text (lit " ?! ... ") = []) by (vm_compute; reflexivity).
  split; [exact H|]. exact (is_wake_word_blank _ H).
Defined.

(** X5.  When the first phrase of the list, normalized, occurs in the
    normalized text, the score is 1.0 if the two are equal and 0.95
    otherwise, whatever the thresholds and the phrases that follow. *)
Theorem is_wake_word_substring
    (wake : str) (wake_words : list str) (text : str)
    (span_threshold token_threshold : float) :
  text <> [] ->
  normalize_wake wake <> [] ->
  contains (normalize_wake wake) (normalize_text text) = true ->
  is_wake_word_in (wake :: wake_words) text span_threshold token_threshold
  = if bool_decide (normalize_text text = normalize_wake wake)
    then 1%float else 0.95%float.
Proof.
  intros Ht Hw Hc. unfold is_wake_word_in.
  destruct text as [|c text']; [congruence|]. cbn [falsy wake_loop].
  unfold wake_body. destruct (normalize_wake wake) as [|w0 w'] eqn:E; [congruence|].
  cbn [falsy]. unfold eqb. rewrite Hc.
  case_bool_decide; reflexivity.
Qed.

Lemma is_wake_word_substring_witness :
  lit "Well, hey Sathi!" <> []
  /\ normalize_wake (lit "hey sathi") <> []
  /\ contains (normalize_wake (lit "hey sathi"))
       (normalize_text (lit "Well, hey Sathi!")) = true
  /\ is_wake_word_in (lit "hey sathi" :: []) (lit "Well, hey Sathi!")
       0.65%float 0.85%float = 0.95%float.
Proof.
  assert (H1 : lit "Well, hey Sathi!" <> []) by (vm_compute; discriminate).
  assert (H2 : normalize_wake (lit "hey sathi") <> []) by (vm_compute; discriminate).
  assert (H3 : contains (normalize_wake (lit "hey sathi"))
                 (normalize_text (lit "Well, hey Sathi!")) = true)
    by (vm_compute; reflexivity).
  split; [exact H1|]. split; [exact H2|]. split; [exact H3|].
  rewrite (is_wake_word_substring (lit "hey sathi") [] (lit "Well, hey Sathi!")
             0.65%float 0.85%float H1 H2 H3).
  vm_compute. reflexivity.
Defined.

(** ** core/calendar_and_clock.py: the classifier and the formatters *)

Lemma lower_lstrip s : lower (lstrip s) = lstrip (lower s).
Proof.
  induction s as [|c r IH]; [reflexivity|].
  cbn [lstrip lower map]. rewrite isspace_lower_char.
  destruct (isspace c); [exact IH|reflexivity].
Qed.

Lemma lower_rstrip s : lower (rstrip s) = rstrip (lower s).
Proof.
  induction s as [|c r IH]; [reflexivity|].
  cbn [rstrip lower map]. fold (lower r). rewrite <- IH, isspace_lower_char.
  destruct (rstrip r); [destruct (isspace c)|]; reflexivity.
Qed.

Lemma lower_strip s : lower (strip s) = strip (lower s).
Proof. unfold strip. now rewrite lower_rstrip, lower_lstrip. Qed.

(** What the classifier looks at is a fixed point of its own
    preparation. *)
Lemma strip_lower_idem text :
  strip (lower (strip (lower text))) = strip (lower text).
Proof. now rewrite lower_strip, lower_idem, strip_idem. Qed.

Lemma process_time_query_prepared clock text :
  strip (lower text) <> [] ->
  text <> [] /\ Calendar.process_time_query clock text
  = try_ (try_ (Calendar.intent_chain clock (strip (lower text)))
            (Ok (Some Calendar.INTENT_ERROR)))
      (Ok (Some Calendar.SYSTEM_ERROR)).
Proof.
  intros H. assert (Hne : text <> []) by (intros ->; apply H; reflexivity).
  split; [exact Hne|]. apply process_time_query_nonempty, Hne.
Qed.

(** X6.  The answer to a query does not depend on the case of its
    letters nor on white space around it: the query and its lowered,
    stripped form get the same answer - as long as that form is not
    empty, for the empty string has an answer of its own. *)
Theorem process_time_query_ignores_case_and_margin
    (clock : exn Calendar.datetime) (text : str) :
  strip (lower text) <> [] ->
  Calendar.process_time_query clock text
  = Calendar.process_time_query clock (strip (lower text)).
Proof.
  intros H.
  destruct (process_time_query_prepared clock text H) as [_ ->].
  assert (H' : strip (lower (strip (lower text))) <> [])
    by (rewrite strip_lower_idem; exact H).
  destruct (process_time_query_prepared clock (strip (lower text)) H') as [_ ->].
  rewrite strip_lower_idem. reflexivity.
Qed.

Lemma process_time_query_ignores_case_and_margin_witness :
  strip (lower (lit "  What TIME is it?  ")) <> []
  /\ Calendar.process_time_query clock_example (lit "  What TIME is it?  ")
     = Calendar.process_time_query clock_example (lit "what time is it?")
  /\ Calendar.process_time_query clock_example (lit "   ")
     <> Calendar.process_time_query clock_example (strip (lower (lit "   "))).
Proof.
  assert (H : strip (lower (lit "  What TIME is it?  ")) <> [])
    by (vm_compute; discriminate).
  split; [exact H|]. split.
  - exact (process_time_query_ignores_case_and_margin clock_example _ H).
  - vm_compute. discriminate.
Defined.

(** *** A pattern of plain characters is a substring test *)

Lemma match_prefix_Empty s : Re.match_prefix Re.Empty s = false.
Proof. induction s as [|c s IH]; [reflexivity|exact IH]. Qed.

Lemma deriv_literal_cons c x p :
  Re.deriv c (literal_re (x :: p))
  = if bool_decide (c = x) then literal_re p else Re.Empty.
Proof.
  cbn [literal_re foldr Re.deriv Re.nullable andb].
  fold (literal_re p).
  case_bool_decide; [|reflexivity].
  cbn [Re.cat]. destruct (literal_re p); reflexivity.
Qed.

Lemma match_prefix_literal p : forall s,
  Re.match_prefix (literal_re p) s = startswith p s.
Proof.
  induction p as [|x p IH]; intros s.
  - destruct s; reflexivity.
  - destruct s as [|c s]; [reflexivity|].
    change (Re.match_prefix (literal_re (x :: p)) (c :: s))
      with (Re.nullable (literal_re (x :: p))
            || Re.match_prefix (Re.deriv c (literal_re (x :: p))) s).
    rewrite deriv_literal_cons. cbn [literal_re foldr Re.nullable andb orb startswith].
    destruct (decide (c = x)) as [->|N].
    + rewrite !bool_decide_eq_true_2 by reflexivity. apply IH.
    + rewrite !bool_decide_eq_false_2 by congruence. apply match_prefix_Empty.
Qed.

Lemma search_literal p : forall s,
  Re.search_re (literal_re p) s = contains p s.
Proof.
  induction s as [|c s IH]; cbn [Re.search_re contains];
    rewrite match_prefix_literal; [reflexivity|]. now rewrite IH.
Qed.

(** *** Stripping keeps what a solid word occurs in *)

Lemma startswith_nonempty p s : p <> [] -> startswith p s = true -> s <> [].
Proof. destruct p, s; simpl; congruence. Qed.

Lemma contains_nonempty p s : p <> [] -> contains p s = true -> s <> [].
Proof. destruct p, s; simpl; congruence. Qed.

Lemma contains_lstrip p s :
  p <> [] -> solid p -> contains p s = true -> contains p (lstrip s) = true.
Proof.
  intros Hne Hp. induction s as [|c r IH]; [trivial|].
  cbn [lstrip]. destruct (isspace c) eqn:E; [|trivial].
  cbn [contains]. intros H. apply IH.
  destruct p as [|x p']; [congruence|]. inversion Hp; subst.
  cbn [startswith] in H. case_bool_decide; [congruence|exact H].
Qed.

Lemma rstrip_cons_nonempty c r : rstrip r <> [] -> rstrip (c :: r) = c :: rstrip r.
Proof. intros H. cbn [rstrip]. destruct (rstrip r); [congruence|reflexivity]. Qed.

Lemma startswith_rstrip p : forall s,
  p <> [] -> solid p -> startswith p s = true -> startswith p (rstrip s) = true.
Proof.
  induction p as [|x p IH]; intros s Hne Hp H; [congruence|].
  destruct s as [|c r]; [discriminate H|].
  inversion Hp as [|? ? Hx Hp']; subst.
  cbn [startswith] in H. apply andb_true_iff in H as [Hc Hr].
  apply bool_decide_eq_true_1 in Hc. subst c.
  rewrite rstrip_cons_keep by exact Hx.
  cbn [startswith]. rewrite bool_decide_eq_true_2 by reflexivity.
  destruct p as [|y p']; [reflexivity|].
  apply IH; [discriminate|exact Hp'|exact Hr].
Qed.

Lemma contains_rstrip p s :
  p <> [] -> solid p -> contains p s = true -> contains p (rstrip s) = true.
Proof.
  intros Hne Hp. induction s as [|c r IH]; [trivial|].
  cbn [contains]. intros H. apply orb_true_iff in H as [H|H].
  - apply (startswith_rstrip p (c :: r) Hne Hp) in H.
    destruct (rstrip (c :: r)); cbn [contains]; rewrite H; reflexivity.
  - specialize (IH H).
    rewrite rstrip_cons_nonempty by (eapply contains_nonempty; eassumption).
    cbn [contains]. rewrite IH. apply orb_true_r.
Qed.

Lemma contains_strip p s :
  p <> [] -> solid p -> contains p s = true -> contains p (strip s) = true.
Proof. intros. unfold strip. apply contains_rstrip, contains_lstrip; assumption. Qed.

(** X7.  The last Date pattern is the bare word [date], so every query
    in which the letters "date" occur, in any case, is answered with the
    date - a question about the time that mentions a date included. *)
Theorem date_anywhere_is_date (clock : exn Calendar.datetime) (text : str) :
  contains (lit "date") (lower text) = true ->
  Calendar.process_time_query clock text
  = Ok (Some (Calendar.get_current_date clock)).
Proof.
  intros H.
  assert (Hp : lit "date" <> []) by discriminate.
  assert (Hs : solid (lit "date")) by (repeat constructor).
  pose proof (contains_strip _ _ Hp Hs H) as Ht.
  destruct (process_time_query_prepared clock text
              (contains_nonempty _ _ Hp Ht)) as [_ ->].
  unfold Calendar.intent_chain.
  assert (D : Calendar.detect_date_intent (strip (lower text)) = true).
  { unfold Calendar.detect_date_intent. apply existsb_exists.
    exists (lit "date"). split.
    - unfold Calendar.DATE_PATTERNS. repeat (try (left; reflexivity); right).
    - assert (C : Re.compile (lit "date") = Some (literal_re (lit "date")))
        by reflexivity.
      unfold Re.search. rewrite C.
      rewrite search_literal, lower_strip, lower_idem. exact Ht. }
  rewrite D. reflexivity.
Qed.

Lemma date_anywhere_is_date_witness :
  contains (lit "date") (lower (lit "What time is my DATE with the doctor")) = true
  /\ Calendar.process_time_query clock_example
       (lit "What time is my DATE with the doctor")
     = Ok (Some (Calendar.get_current_date clock_example)).
Proof.
  assert (H : contains (lit "date")
                (lower (lit "What time is my DATE with the doctor")) = true)
    by (vm_compute; reflexivity).
  split; [exact H|]. exact (date_anywhere_is_date clock_example _ H).
Defined.

(** X8.  For a time of day the spoken time has the form
    "It's H M am|pm" with H between 1 and 12, and H with the meridian
    gives the hour of the clock back: midnight and noon are both
    spoken as 12, the one am and the other pm.  The minute is
    "o'clock" at 0, "oh N" from 1 to 9 and the number from 10 on. *)
Theorem spoken_time_determines_the_time (now : Calendar.datetime) :
  0 <= Calendar.hour now < 24 -> 0 <= Calendar.minute now < 60 ->
  exists h m meridian,
    (Calendar.get_current_time (Ok now)).1
    = lit "It's " ++ of_Z h ++ lit " " ++ m ++ lit " " ++ meridian
    /\ 1 <= h <= 12
    /\ (meridian = lit "am" /\ Calendar.hour now = h mod 12
        \/ meridian = lit "pm" /\ Calendar.hour now = h mod 12 + 12)
    /\ (Calendar.minute now = 0 /\ m = lit "o'clock"
        \/ 1 <= Calendar.minute now <= 9
           /\ m = lit "oh " ++ of_Z (Calendar.minute now)
        \/ 10 <= Calendar.minute now /\ m = of_Z (Calendar.minute now)).
Proof.
  intros Hh Hm. unfold Calendar.get_current_time. cbn [fst].
  pose proof (Z.mod_pos_bound (Calendar.hour now) 12 ltac:(lia)) as Hb.
  pose proof (Z.div_mod (Calendar.hour now) 12 ltac:(lia)) as Hd.
  set (hm := Calendar.hour now mod 12) in *.
  set (q := Calendar.hour now / 12) in *.
  eexists (if hm =? 0 then 12 else hm), _, _.
  split; [reflexivity|].
  split; [destruct (Z.eqb_spec hm 0); lia|].
  split.
  - assert (E : (if hm =? 0 then 12 else hm) mod 12 = hm).
    { destruct (Z.eqb_spec hm 0) as [->|N]; [reflexivity|].
      apply Z.mod_small. lia. }
    rewrite E. destruct (Z.leb_spec 12 (Calendar.hour now)); [right|left];
      (split; [reflexivity|lia]).
  - destruct (Z.eqb_spec (Calendar.minute now) 0); [left; split; [assumption|reflexivity]|].
    destruct (Z.ltb_spec (Calendar.minute now) 10).
    + right. left. split; [lia|reflexivity].
    + right. right. split; [lia|reflexivity].
Qed.

Lemma spoken_time_determines_the_time_witness :
  0 <= 0 < 24 /\ 0 <= 7 < 60
  /\ (Calendar.get_current_time (Ok (Calendar.mkDatetime 2026 11 4 0 7))).1
     = lit "It's 12 oh 7 am"
  /\ exists h m meridian,
       (Calendar.get_current_time (Ok (Calendar.mkDatetime 2026 11 4 0 7))).1
       = lit "It's " ++ of_Z h ++ lit " " ++ m ++ lit " " ++ meridian
       /\ 1 <= h <= 12.
Proof.
  split; [lia|]. split; [lia|]. split; [reflexivity|].
  destruct (spoken_time_determines_the_time (Calendar.mkDatetime 2026 11 4 0 7))
    as (h & m & mer & E & B & _); [simpl; lia|simpl; lia|].
  exists h, m, mer. split; assumption.
Defined.

(** ** core/tts_output.py: the choice of the voice and the file output *)

Lemma startswith_contains p s : startswith p s = true -> contains p s = true.
Proof. intros H. destruct s; cbn [contains]; rewrite H; reflexivity. Qed.

Lemma contains_tail c p s : contains (c :: p) s = true -> contains p s = true.
Proof.
  induction s as [|d s IH]; [discriminate|].
  cbn [contains startswith]. intros H. apply orb_true_iff in H as [H|H].
  - apply andb_true_iff in H as [_ H].
    rewrite (startswith_contains _ _ H). apply orb_true_r.
  - rewrite (IH H). apply orb_true_r.
Qed.

(** X9.  [select_voice] returns the id of the first voice of the list
    whose lowered name passes the test of the profile, and [None] when
    no voice passes. *)
Theorem select_voice_first_match (use_male_voice : bool) (vs : list Voice) :
  (forall id,
      select_voice use_male_voice vs = Some id <->
      exists before v after,
        vs = before ++ v :: after
        /\ Forall (λ u, matches_profile use_male_voice (lower (voice_name u)) = false)
             before
        /\ matches_profile use_male_voice (lower (voice_name v)) = true
        /\ id = voice_id v)
  /\ (select_voice use_male_voice vs = None <->
      Forall (λ u, matches_profile use_male_voice (lower (voice_name u)) = false) vs).
Proof.
  induction vs as [|u vs [IHs IHn]].
  - split.
    + intros id. split; [discriminate|].
      intros (before & v & after & E & _). destruct before; discriminate E.
    + split; [constructor|reflexivity].
  - cbn [select_voice].
    destruct (matches_profile use_male_voice (lower (voice_name u))) eqn:Mu.
    + split.
      * intros id. split.
        -- intros [= <-]. exists [], u, vs. repeat split; [constructor|assumption].
        -- intros (before & v & after & E & Hb & Hv & ->).
           destruct before as [|b before].
           ++ injection E as <- _. reflexivity.
           ++ injection E as <- _. inversion Hb; congruence.
      * split; [discriminate|]. intros H. inversion H; congruence.
    + split.
      * intros id. rewrite IHs. split.
        -- intros (before & v & after & -> & Hb & Hv & ->).
           exists (u :: before), v, after. repeat split; [constructor|]; assumption.
        -- intros (before & v & after & E & Hb & Hv & ->).
           destruct before as [|b before].
           ++ injection E as <- _. congruence.
           ++ injection E as <- ->. inversion Hb; subst.
              exists before, v, after. repeat split; assumption.
      * rewrite IHn. split; [intros H; constructor; assumption|].
        intros H. inversion H; assumption.
Qed.

(** X10.  The test for the male profile looks for "male" anywhere in
    the lowered name, and "female" holds it: asked for a male voice,
    [select_voice] takes a voice named female when it comes first. *)
Theorem male_profile_takes_female (v : Voice) (rest : list Voice) :
  contains (lit "female") (lower (voice_name v)) = true ->
  matches_profile true (lower (voice_name v)) = true
  /\ select_voice true (v :: rest) = Some (voice_id v).
Proof.
  intros H.
  assert (M : matches_profile true (lower (voice_name v)) = true).
  { change (lit "female") with ("f"%char :: "e"%char :: lit "male") in H.
    apply contains_tail, contains_tail in H.
    unfold matches_profile. rewrite H. apply orb_true_r. }
  split; [exact M|]. cbn [select_voice]. rewrite M. reflexivity.
Qed.

Lemma male_profile_takes_female_witness :
  contains (lit "female")
    (lower (voice_name (mkVoice (lit "voice.zira") (lit "Microsoft Zira (Female)"))))
  = true
  /\ select_voice true
       [mkVoice (lit "voice.zira") (lit "Microsoft Zira (Female)");
        mkVoice (lit "voice.david") (lit "Microsoft David (Male)")]
     = Some (lit "voice.zira").
Proof.
  assert (H : contains (lit "female")
                (lower (voice_name
                          (mkVoice (lit "voice.zira") (lit "Microsoft Zira (Female)"))))
              = true) by reflexivity.
  split; [exact H|].
  exact (proj2 (male_profile_takes_female
                  (mkVoice (lit "voice.zira") (lit "Microsoft Zira (Female)"))
                  [mkVoice (lit "voice.david") (lit "Microsoft David (Male)")] H)).
Defined.

(** X11.  On a machine where no call raises, [speak_text] speaks with
    the voice [select_voice] found when its id is not the empty string,
    and with the first voice of the list when the id found is empty. *)
Theorem speak_text_selected_voice
    (h : Host) (text : str) (use_male_voice : bool) (id : str)
    (first : Voice) (rest : list Voice) :
  text <> [] ->
  voices h = first :: rest ->
  select_voice use_male_voice (voices h) = Some id ->
  (forall e, raises h e = false) ->
  run (speak_text h text use_male_voice)
  = ([EngineInit; SetRate 150; SetVolume 0.9%float; GetVoices;
      SetVoice (if falsy id then voice_id first else id); Say text; RunAndWait],
     Ok (Some true)).
Proof.
  intros Hne Hv Hs Hr.
  destruct text as [|c text']; [congruence|].
  unfold speak_text. cbn [falsy]. rewrite Hs, Hv.
  destruct id; cbn [truthy falsy]; run_body; rewrite !Hr; reflexivity.
Qed.

Lemma speak_text_selected_voice_witness :
  lit "Good day" <> []
  /\ run (speak_text
            (mkHost [mkVoice (lit "voice.hazel") (lit "Microsoft Hazel");
                     mkVoice (lit "voice.david") (lit "Microsoft David")]
               (λ _, false) (lit "20261104_200500") (λ d n, d ++ lit "/" ++ n))
            (lit "Good day") true)
     = ([EngineInit; SetRate 150; SetVolume 0.9%float; GetVoices;
         SetVoice (lit "voice.david"); Say (lit "Good day"); RunAndWait],
        Ok (Some true)).
Proof.
  assert (Hne : lit "Good day" <> []) by (vm_compute; discriminate).
  split; [exact Hne|].
  exact (speak_text_selected_voice
           (mkHost [mkVoice (lit "voice.hazel") (lit "Microsoft Hazel");
                    mkVoice (lit "voice.david") (lit "Microsoft David")]
              (λ _, false) (lit "20261104_200500") (λ d n, d ++ lit "/" ++ n))
           (lit "Good day") true (lit "voice.david")
           (mkVoice (lit "voice.hazel") (lit "Microsoft Hazel"))
           [mkVoice (lit "voice.david") (lit "Microsoft David")]
           Hne eq_refl eq_refl (λ _, eq_refl)).
Defined.

(** X12.  [text_to_speech] never raises.  It returns a path only when
    every call it made returned, the path being [response_<time
    stamp>.wav] in the output directory and the text having been saved
    to it; it returns [None] exactly when one of its calls raised.  It
    has no guard for the empty text and none for an empty list of
    voices: with no voice installed, and no call raising, it saves the
    text with the voice the engine starts with. *)
Theorem text_to_speech_result
    (h : Host) (text output_dir : str) (use_male_voice : bool) :
  let tr := (run (text_to_speech h text output_dir use_male_voice)).1 in
  let r := (run (text_to_speech h text output_dir use_male_voice)).2 in
  let output_file :=
    path_join h output_dir (lit "response_" ++ timestamp h ++ lit ".wav") in
  r <> Raise
  /\ (forall file, r = Ok (Some file) ->
      file = output_file /\ In (SaveToFile text output_file) tr
      /\ last tr = Some RunAndWait /\ Forall (λ e, raises h e = false) tr)
  /\ (r = Ok None <-> Exists (λ e, raises h e = true) tr)
  /\ (voices h = [] -> (forall e, raises h e = false) ->
      run (text_to_speech h text output_dir use_male_voice)
      = ([MakeDirs output_dir; EngineInit; SetRate 120; SetVolume 0.9%float;
          GetVoices; SaveToFile text output_file; RunAndWait],
         Ok (Some output_file))).
Proof.
  intros tr r output_file. subst tr r.
  unfold text_to_speech. fold output_file.
  assert (NX : forall l, Forall (λ e, raises h e = false) l ->
                         ~ Exists (λ e, raises h e = true) l).
  { intros l Hl Hx. apply Exists_exists in Hx as (e & He & Hx).
    rewrite Forall_forall in Hl. specialize (Hl e He). congruence. }
  split; [|split; [|split]].
  - destruct (truthy _); [|destruct (voices h)]; run_body;
      repeat step_call h; cbn [snd]; discriminate.
  - intros file.
    destruct (truthy _); [|destruct (voices h)]; run_body;
      repeat step_call h; cbn [fst snd]; intros [= <-];
      (split; [reflexivity|]); (split; [simpl; tauto|]);
      (split; [reflexivity|]); repeat constructor; assumption.
  - destruct (truthy _); [|destruct (voices h)]; run_body;
      repeat step_call h; cbn [fst snd];
      (split;
       [ first [ discriminate
               | intros _;
                 repeat first [apply Exists_cons_hd; assumption | apply Exists_cons_tl] ]
       | first [ reflexivity
               | intros Hx; exfalso; revert Hx; apply NX;
                 repeat constructor; assumption ] ]).
  - intros Hv Hr. rewrite Hv. cbn [select_voice truthy].
    run_body. rewrite !Hr. reflexivity.
Qed.

Example text_to_speech_empty_text :
  run (text_to_speech host_no_voice (lit "") (lit "data/audio") true)
  = ([MakeDirs (lit "data/audio"); EngineInit; SetRate 120; SetVolume 0.9%float;
      GetVoices; SaveToFile (lit "") (lit "data/audio/response_20261104_200500.wav");
      RunAndWait],
     Ok (Some (lit "data/audio/response_20261104_200500.wav"))).
Proof. reflexivity. Qed.

(** ** core/main.py: the interaction and the wake loop *)

(** What the two synthesis functions add to a trace are events of the
    speech engine, and they return. *)
Lemma speak_text_trace h text male tr :
  exists tr' r, speak_text h text male tr = (tr ++ tr', Ok r)
                /\ Forall (λ e, is_engine e = true) tr'.
Proof.
  unfold speak_text. destruct (falsy text).
  { exists [], None. rewrite app_nil_r. split; [reflexivity|constructor]. }
  destruct (voices h) as [|first rest]; [|destruct (truthy _)];
    unfold try_m, call, mbind, M_bind, mret, M_ret;
    repeat step_call h; rewrite <- ?app_assoc; cbn [app];
    eexists _, _; (split; [reflexivity|repeat constructor]).
Qed.

Lemma text_to_speech_trace h text dir male tr :
  exists tr' r, text_to_speech h text dir male tr = (tr ++ tr', Ok r)
                /\ Forall (λ e, is_engine e = true) tr'.
Proof.
  unfold text_to_speech.
  destruct (truthy _); [|destruct (voices h) as [|first rest]];
    unfold try_m, call, mbind, M_bind, mret, M_ret;
    repeat step_call h; rewrite <- ?app_assoc; cbn [app];
    eexists _, _; (split; [reflexivity|repeat constructor]).
Qed.

Lemma greet_trace w pick tr :
  exists tr', greet w pick tr = (tr ++ tr', Ok ())
              /\ Forall (λ e, is_engine e = true) tr'.
Proof.
  unfold greet, mbind, M_bind.
  destruct (speak_text_trace (host w)
              (nth (Nat.modulo pick (length SATHI_GREETINGS)) SATHI_GREETINGS [])
              true tr) as (t1 & r1 & -> & F1).
  destruct (text_to_speech_trace (host w)
              (nth (Nat.modulo pick (length SATHI_GREETINGS)) SATHI_GREETINGS [])
              AUDIO_DIR true (tr ++ t1)) as (t2 & r2 & -> & F2).
  exists (t1 ++ t2). rewrite app_assoc. split; [reflexivity|].
  apply Forall_app; split; assumption.
Qed.

Lemma engine_not_generate l :
  Forall (λ e, is_engine e = true) l -> Forall (λ e, is_generate e = false) l.
Proof.
  intros F. eapply Forall_impl; [exact F|].
  intros e H. destruct e; try reflexivity; discriminate H.
Qed.

Lemma speak_time_response_some w p tr :
  exists tr', speak_time_response w (Some p) tr = (tr ++ tr', Ok true)
              /\ Forall (λ e, is_engine e = true) tr'.
Proof.
  destruct p as [spoken display]. unfold speak_time_response, mbind, M_bind.
  destruct (negb (falsy spoken)).
  - destruct (speak_text_trace (host w) spoken true tr) as (t1 & r1 & -> & F1).
    destruct (not_result r1).
    + destruct (text_to_speech_trace (host w) spoken AUDIO_DIR true (tr ++ t1))
        as (t2 & r2 & -> & F2).
      exists (t1 ++ t2). rewrite app_assoc. split; [reflexivity|].
      apply Forall_app; split; assumption.
    + exists t1. split; [reflexivity|assumption].
  - destruct (speak_text_trace (host w)
                (lit "I'm having trouble telling the time right now.") true tr)
      as (t1 & r1 & -> & F1).
    exists t1. split; [reflexivity|assumption].
Qed.



(** X15.  A query that the clock module answers is never forwarded to
    the remote model, whatever the speech engine does.  When the engine
    speaks, the answer is spoken once and not saved to a file; when
    [speak_text] does not return [True] - here for want of a voice - the
    answer goes to [text_to_speech] instead. *)
Theorem time_query_answered_locally
    (w : World) (audio heard spoken display : str) :
  audio <> [] -> heard <> [] ->
  Calendar.process_time_query (clock w) heard = Ok (Some (spoken, display)) ->
  let trace := (run (sathi_interaction w (Some audio) (Some heard))).1 in
  Forall (λ e, is_generate e = false) trace
  /\ (spoken <> [] -> (forall e, raises (host w) e = false) ->
      (voices (host w) <> [] ->
       exists id,
         trace = [RecordAudio 8 (lit "data/audio/audio.wav"); Transcribe (Some audio);
                  EngineInit; SetRate 150; SetVolume 0.9%float; GetVoices;
                  SetVoice id; Say spoken; RunAndWait])
      /\ (voices (host w) = [] ->
          trace = [RecordAudio 8 (lit "data/audio/audio.wav");
                   Transcribe (Some audio);
                   EngineInit; SetRate 150; SetVolume 0.9%float; GetVoices;
                   MakeDirs AUDIO_DIR; EngineInit; SetRate 120; SetVolume 0.9%float;
                   GetVoices;
                   SaveToFile spoken
                     (path_join (host w) AUDIO_DIR
                        (lit "response_" ++ timestamp (host w) ++ lit ".wav"));
                   RunAndWait])).
Proof.
  intros Ha Hh Hq trace. subst trace.
  set (tr0 := [RecordAudio 8 (lit "data/audio/audio.wav"); Transcribe (Some audio)]).
  destruct (speak_time_response_some w (spoken, display) tr0) as (tr' & S & F).
  unfold ResponsePair in S.
  assert (E : run (sathi_interaction w (Some audio) (Some heard))
              = ((speak_time_response w (Some (spoken, display)) tr0).1, Ok ())).
  { rewrite S. subst tr0.
    destruct audio as [|a0 audio']; [congruence|].
    destruct heard as [|h0 heard']; [congruence|].
    unfold run, sathi_interaction, record_audio, transcribe_audio, lift, try_m,
      mbind, M_bind.
    cbn [app falsy_opt from_option id]. rewrite Hq. cbv beta iota.
    rewrite S. reflexivity. }
  rewrite E. clear E. cbn [fst]. split.
  - rewrite S. cbn [fst]. apply Forall_app. split; [repeat constructor|].
    apply engine_not_generate, F.
  - intros Hs Hr. destruct spoken as [|s0 spoken']; [congruence|].
    unfold speak_time_response. cbn [falsy negb].
    split.
    + intros Hv. destruct (voices (host w)) as [|first rest] eqn:V; [congruence|].
      exists (if truthy (select_voice true (first :: rest))
              then default [] (select_voice true (first :: rest))
              else voice_id first).
      unfold speak_text. cbn [falsy]. rewrite V.
      destruct (truthy _); run_body; rewrite !Hr; reflexivity.
    + intros V. unfold speak_text, text_to_speech. cbn [falsy]. rewrite V.
      cbn [select_voice truthy]. run_body. rewrite !Hr. reflexivity.
Qed.

Lemma time_query_answered_locally_witness :
  lit "data/audio/audio.wav" <> [] /\ lit "what's the date today" <> []
  /\ Forall (λ e, is_generate e = false)
       (run (sathi_interaction world_model_up (Some (lit "data/audio/audio.wav"))
               (Some (lit "what's the date today")))).1.
Proof.
  assert (Ha : lit "data/audio/audio.wav" <> []) by (vm_compute; discriminate).
  assert (Hh : lit "what's the date today" <> []) by (vm_compute; discriminate).
  split; [exact Ha|]. split; [exact Hh|].
  exact (proj1 (time_query_answered_locally world_model_up _ _
                  (Calendar.get_current_date clock_example).1
                  (Calendar.get_current_date clock_example).2 Ha Hh eq_refl)).
Defined.

(** One pass of the wake loop from any trace: below the cutoff it adds
    the recording and the transcription and goes on listening; from the
    cutoff on it adds the greeting and leaves the loop. *)
Lemma wake_iteration_step w i tr :
  let pass := wake_iteration w (l_pick i) (l_audio i) (l_heard i)
                (l_confirm_audio i) (l_confirm_heard i) tr in
  (below_cutoff i -> pass = (tr ++ listened i, Ok Continue))
  /\ (~ below_cutoff i ->
      exists greeted,
        pass = (tr ++ listened i ++ greeted, Ok Break)
        /\ Forall (λ e, is_engine e = true) greeted).
Proof.
  intros pass. subst pass.
  unfold wake_iteration, record_audio, transcribe_audio, first_block,
    below_cutoff, listened, mbind, M_bind.
  cbv beta iota. rewrite <- app_assoc. cbn [app].
  destruct (falsy_opt (l_heard i)) eqn:Hf.
  - split; [reflexivity|]. intros N. exfalso. apply N. left. reflexivity.
  - destruct (PrimFloat.leb _ _) eqn:Hs.
    + split; [intros [H|H]; discriminate H|]. intros _.
      destruct (greet_trace w (l_pick i)
                  (tr ++ [RecordAudio 5 (lit "data/audio/listen.wav");
                          Transcribe (l_audio i)])) as (g & G & F).
      exists g. split; [|exact F].
      rewrite G. rewrite <- app_assoc. reflexivity.
    + split; [reflexivity|]. intros N. exfalso. apply N. right. reflexivity.
Qed.

Lemma wake_phase_idle_from w inputs : forall tr,
  Forall below_cutoff inputs ->
  wake_phase w inputs tr = (tr ++ concat (map listened inputs), Ok None).
Proof.
  induction inputs as [|i inputs IH]; intros tr H.
  - simpl. rewrite app_nil_r. reflexivity.
  - inversion H as [|? ? Hi Hrest]; subst.
    cbn [wake_phase]. unfold mbind, M_bind.
    rewrite (proj1 (wake_iteration_step w i tr) Hi).
    rewrite (IH _ Hrest). cbn [map concat]. rewrite <- app_assoc. reflexivity.
Qed.

(** X16.  As long as no utterance reaches the cutoff the assistant stays
    in its wake loop whatever the number of utterances: all it does is
    record and transcribe; it never speaks, never asks the clock or the
    model, and the conversation does not start. *)
Theorem assistant_idle_below_cutoff (w : World) (inputs : list Listen) :
  Forall below_cutoff inputs ->
  run (wake_phase w inputs) = (concat (map listened inputs), Ok None)
  /\ run (sathi_assistant w inputs) = (concat (map listened inputs), Ok ())
  /\ Forall (λ e, is_speech e = false /\ is_generate e = false)
       (run (sathi_assistant w inputs)).1.
Proof.
  intros H.
  assert (E : run (wake_phase w inputs) = (concat (map listened inputs), Ok None))
    by (unfold run; rewrite (wake_phase_idle_from w inputs [] H); reflexivity).
  assert (E2 : run (sathi_assistant w inputs)
               = (concat (map listened inputs), Ok ())).
  { unfold run, sathi_assistant, mbind, M_bind. unfold run in E. rewrite E.
    reflexivity. }
  split; [exact E|]. split; [exact E2|]. rewrite E2. cbn [fst].
  clear. induction inputs as [|i inputs IH]; [constructor|].
  cbn [map concat listened app]. repeat constructor. exact IH.
Qed.

Lemma assistant_idle_below_cutoff_witness :
  Forall below_cutoff [listen_to "sadhu"; listen_to "good morning"]
  /\ run (sathi_assistant world_model_up
            [listen_to "sadhu"; listen_to "good morning"])
     = ([RecordAudio 5 (lit "data/audio/listen.wav");
         Transcribe (Some (lit "data/audio/listen.wav"));
         RecordAudio 5 (lit "data/audio/listen.wav");
         Transcribe (Some (lit "data/audio/listen.wav"))], Ok ()).
Proof.
  assert (H : Forall below_cutoff [listen_to "sadhu"; listen_to "good morning"]).
  { repeat constructor; right; vm_compute; reflexivity. }
  split; [exact H|].
  exact (proj1 (proj2 (assistant_idle_below_cutoff world_model_up _ H))).
Defined.

(** X17.  The wake loop is left at the first utterance that reaches the
    cutoff: the utterances before it are only recorded and transcribed,
    this one is answered with the greeting, and the utterances after it
    are what the conversation gets. *)
Theorem assistant_wakes_at_first_match
    (w : World) (before after : list Listen) (i : Listen) :
  Forall below_cutoff before ->
  ~ below_cutoff i ->
  exists greeted,
    Forall (λ e, is_engine e = true) greeted
    /\ run (wake_phase w (before ++ i :: after))
       = (concat (map listened before) ++ listened i ++ greeted, Ok (Some after))
    /\ run (sathi_assistant w (before ++ i :: after))
       = conversation w after
           (concat (map listened before) ++ listened i ++ greeted).
Proof.
  intros Hb Hi.
  assert (G : forall tr, exists greeted,
             Forall (λ e, is_engine e = true) greeted
             /\ wake_phase w (before ++ i :: after) tr
                = (tr ++ concat (map listened before) ++ listened i ++ greeted,
                   Ok (Some after))).
  { induction Hb as [|b before Hb0 Hb IH]; intros tr.
    - destruct (proj2 (wake_iteration_step w i tr) Hi) as (g & E & F).
      exists g. split; [exact F|].
      cbn [app wake_phase map concat]. unfold mbind, M_bind. rewrite E. reflexivity.
    - destruct (IH (tr ++ listened b)) as (g & F & E).
      exists g. split; [exact F|].
      change ((b :: before) ++ i :: after) with (b :: (before ++ i :: after)).
      cbn [wake_phase]. unfold mbind, M_bind.
      rewrite (proj1 (wake_iteration_step w b tr) Hb0). rewrite E.
      cbn [map concat]. rewrite <- !app_assoc. reflexivity. }
  destruct (G []) as (g & F & E). exists g.
  split; [exact F|]. split; [exact E|].
  unfold run, sathi_assistant, mbind, M_bind. rewrite E. reflexivity.
Qed.

Lemma assistant_wakes_at_first_match_witness :
  Forall below_cutoff [listen_to "sadhu"] /\ ~ below_cutoff (listen_to "hey sathi")
  /\ (run (wake_phase world_model_up
             ([listen_to "sadhu"] ++ listen_to "hey sathi"
                :: [listen_to "what time is it"]))).2
     = Ok (Some [listen_to "what time is it"]).
Proof.
  assert (Hb : Forall below_cutoff [listen_to "sadhu"]).
  { repeat constructor; right; vm_compute; reflexivity. }
  assert (Hi : ~ below_cutoff (listen_to "hey sathi")).
  { intros [H|H]; vm_compute in H; discriminate H. }
  split; [exact Hb|]. split; [exact Hi|].
  destruct (assistant_wakes_at_first_match world_model_up [listen_to "sadhu"]
              [listen_to "what time is it"] (listen_to "hey sathi") Hb Hi)
    as (g & _ & E & _).
  rewrite E. reflexivity.
Defined.

(** ** core/task_manager.py: the table of reminders *)

Section TaskTable.

Import Tasks.

Lemma str_leb_total a : forall b, str_leb a b = false -> str_leb b a = true.
Proof.
  induction a as [|x a IH]; intros [|y b]; cbn [str_leb]; try congruence.
  destruct (Z.ltb_spec (code x) (code y)); [discriminate|].
  destruct (Z.ltb_spec (code y) (code x)); [reflexivity|]. apply IH.
Qed.

Lemma str_leb_trans a : forall b c,
  str_leb a b = true -> str_leb b c = true -> str_leb a c = true.
Proof.
  induction a as [|x a IH]; intros [|y b] [|z c]; cbn [str_leb]; try congruence.
  destruct (Z.ltb_spec (code x) (code y)), (Z.ltb_spec (code y) (code x)),
    (Z.ltb_spec (code y) (code z)), (Z.ltb_spec (code z) (code y)),
    (Z.ltb_spec (code x) (code z)), (Z.ltb_spec (code z) (code x));
    try congruence; try lia.
  apply IH.
Qed.

Lemma insert_by_time_perm r l : insert_by_time r l ≡ₚ r :: l.
Proof.
  induction l as [|x l IH]; cbn [insert_by_time]; [reflexivity|].
  destruct (str_leb _ _); [reflexivity|]. rewrite IH. apply Permutation_swap.
Qed.

Lemma order_by_time_perm l : order_by_time l ≡ₚ l.
Proof.
  induction l as [|x l IH]; [reflexivity|].
  unfold order_by_time in *. cbn [foldr]. rewrite insert_by_time_perm, IH.
  reflexivity.
Qed.

Lemma insert_by_time_sorted r l :
  StronglySorted time_le l -> StronglySorted time_le (insert_by_time r l).
Proof.
  induction 1 as [|x l Hl IH Hx]; cbn [insert_by_time].
  - repeat constructor.
  - destruct (str_leb (row_time r) (row_time x)) eqn:E.
    + constructor; [constructor; assumption|].
      constructor; [exact E|].
      eapply Forall_impl; [exact Hx|]. intros y Hy.
      eapply str_leb_trans; [exact E|exact Hy].
    + constructor; [exact IH|].
      rewrite insert_by_time_perm. constructor; [|exact Hx].
      apply str_leb_total, E.
Qed.

Lemma order_by_time_sorted l : StronglySorted time_le (order_by_time l).
Proof.
  induction l as [|x l IH]; [constructor|].
  unfold order_by_time in *. cbn [foldr]. apply insert_by_time_sorted, IH.
Qed.

Lemma fetch_tasks_down env db : db_raises env = true -> fetch_tasks env db = [].
Proof. unfold fetch_tasks. intros ->. reflexivity. Qed.

Lemma fetch_tasks_perm env db :
  db_raises env = false ->
  fetch_tasks env db ≡ₚ map select (filter (λ t, is_active t = true) (rows db)).
Proof. unfold fetch_tasks. intros ->. apply order_by_time_perm. Qed.

(** X18.  [fetch_tasks] returns the active rows of the table, each once,
    in ascending order of their time text; and the empty list when the
    database raises. *)
Theorem fetch_tasks_active_sorted (env : Store) (db : Db) :
  (db_raises env = true -> fetch_tasks env db = [])
  /\ (db_raises env = false ->
      StronglySorted time_le (fetch_tasks env db)
      /\ fetch_tasks env db
         ≡ₚ map select (filter (λ t, is_active t = true) (rows db))).
Proof.
  unfold fetch_tasks. destruct (db_raises env).
  - split; [reflexivity|discriminate].
  - split; [discriminate|]. intros _.
    split; [apply order_by_time_sorted|apply order_by_time_perm].
Qed.

Lemma In_fetch_tasks env db r :
  db_raises env = false ->
  In r (fetch_tasks env db)
  <-> exists t, In t (rows db) /\ is_active t = true /\ r = select t.
Proof.
  intros H.
  pose proof (fetch_tasks_perm env db H) as P.
  rewrite <- list_elem_of_In, P, list_elem_of_fmap.
  split.
  - intros (t & -> & Ht). apply list_elem_of_filter in Ht as [Ha Ht].
    exists t. rewrite <- list_elem_of_In. auto.
  - intros (t & Ht & Ha & ->). exists t. split; [reflexivity|].
    apply list_elem_of_filter. rewrite list_elem_of_In. auto.
Qed.

Lemma next_id_above db : Forall (λ t, task_id t < next_id db) (rows db).
Proof.
  unfold next_id. destruct db as [rs s]. cbn [rows seq].
  assert (H : Forall (λ t, task_id t <= foldr Z.max 0 (map task_id rs)) rs).
  { induction rs as [|t rs IH]; constructor; cbn [map foldr]; [lia|].
    eapply Forall_impl; [exact IH|]. intros; simpl in *; lia. }
  eapply Forall_impl; [exact H|]. intros; simpl in *; lia.
Qed.

(** X19.  [add_task] returns [True] exactly when the time parses as
    [%H:%M] and the database does not raise.  It returns [False] only
    when the database raises once the connection is made.  For a time
    that does not parse, and when connecting fails, it does not return:
    [conn] is still [None] when the [finally] block calls
    [conn.close()], and the [AttributeError] leaves the function in
    place of the [False].  The table changes only when [True] is
    returned: it then has one more row, active and never run, whose id
    is larger than every id in the table before, and [fetch_tasks] lists
    it with the time text as given. *)
Theorem add_task_outcome
    (env : Store) (st : stage) (time_str message : str) (repeat : bool) (db : Db) :
  let db' := (add_task env st time_str message repeat db).1 in
  let result := (add_task env st time_str message repeat db).2 in
  (result = Ok true <-> strptime_HM time_str = true /\ db_raises env = false)
  /\ (result = Ok false
      <-> strptime_HM time_str = true /\ db_raises env = true /\ st = Connected)
  /\ (result = Raise
      <-> strptime_HM time_str = false \/ db_raises env = true /\ st = Connecting)
  /\ (result <> Ok true -> db' = db)
  /\ (result = Ok true ->
      exists id,
        Forall (λ t, task_id t < id) (rows db)
        /\ rows db' = rows db ++ [mkTask id time_str message true
                                    (current_timestamp env) None repeat]
        /\ In (mkRow id time_str message repeat None) (fetch_tasks env db')).
Proof.
  intros db' result. subst db' result. unfold add_task.
  destruct (strptime_HM time_str) eqn:V; cbn [negb];
    [|cbn [fst snd]; intuition congruence].
  destruct (db_raises env) eqn:R;
    [destruct st; cbn [fst snd]; intuition congruence|].
  cbn [fst snd].
  split; [intuition congruence|]. split; [intuition congruence|].
  split; [intuition congruence|]. split; [congruence|]. intros _.
  exists (next_id db). split; [apply next_id_above|]. split; [reflexivity|].
  apply In_fetch_tasks; [exact R|].
  exists (mkTask (next_id db) time_str message true (current_timestamp env)
            None repeat).
  split; [|split; reflexivity].
  cbn [rows]. apply in_or_app. right. left. reflexivity.
Qed.

(** A time that does not parse: the caller gets the exception, not
    [False]. *)
Example add_task_bad_time :
  add_task (mkStore false (lit "2026-11-04 07:00:00")) Connected
    (lit "25:00") (lit "Take your medicine") true empty_db
  = (empty_db, Raise).
Proof. reflexivity. Qed.

(** X20.  [delete_task] is a soft delete.  When the database does not
    raise it returns [True], also for an id the table does not hold, in
    which case the table is unchanged.  The rows stay in the table with
    their ids; afterwards [fetch_tasks] lists exactly the rows it listed
    before whose id is another one. *)
Theorem delete_task_soft (env : Store) (id : Z) (db : Db) :
  db_raises env = false ->
  let db' := (delete_task env id db).1 in
  (delete_task env id db).2 = true
  /\ (~ In id (map task_id (rows db)) -> db' = db)
  /\ map task_id (rows db') = map task_id (rows db)
  /\ (forall r, In r (fetch_tasks env db')
                <-> In r (fetch_tasks env db) /\ row_id r <> id).
Proof.
  intros R db'. subst db'. unfold delete_task. rewrite R. cbn [fst snd].
  split; [reflexivity|]. split; [|split].
  - intros N. destruct db as [rs s]. cbn [rows seq] in *. f_equal.
    induction rs as [|t rs IH]; [reflexivity|]. cbn [map] in *.
    destruct (Z.eqb_spec (task_id t) id) as [E|E]; [exfalso; apply N; left; exact E|].
    f_equal. apply IH. intros H. apply N. right. exact H.
  - cbn [rows]. rewrite map_map. apply map_ext. intros t.
    destruct (task_id t =? id); reflexivity.
  - intros r. rewrite !In_fetch_tasks by exact R. cbn [rows]. split.
    + intros (t & Ht & Ha & ->). apply in_map_iff in Ht as (t0 & <- & Ht0).
      destruct (Z.eqb_spec (task_id t0) id) as [E|E]; [discriminate Ha|].
      split; [exists t0; auto|exact E].
    + intros [(t & Ht & Ha & ->) N]. exists t. split; [|auto].
      apply in_map_iff. exists t. split; [|exact Ht].
      cbn [select row_id] in N.
      destruct (Z.eqb_spec (task_id t) id); [congruence|reflexivity].
Qed.

Lemma delete_task_soft_witness :
  db_raises (mkStore false (lit "2026-11-04 20:05:00")) = false
  /\ delete_task (mkStore false (lit "2026-11-04 20:05:00")) 7 empty_db
     = (empty_db, true).
Proof.
  split; [reflexivity|].
  pose proof (delete_task_soft (mkStore false (lit "2026-11-04 20:05:00")) 7
                empty_db eq_refl) as [H _].
  reflexivity.
Defined.

End TaskTable.

(** ** core/task_scheduler.py: announcing the reminders *)

Section Reminders.

Import Tasks Scheduler.

Variables (h : Tts.Host) (env : Store).

Lemma two_digits_length n :
  0 <= n < 60 -> length (Calendar.two_digits n) = 2%nat.
Proof.
  intros H.
  assert (A : forallb (λ k, Nat.eqb (length (Calendar.two_digits k)) 2) (seqZ 0 60)
              = true) by (vm_compute; reflexivity).
  rewrite forallb_forall in A.
  apply Nat.eqb_eq, A, list_elem_of_In, elem_of_seqZ. lia.
Qed.

Lemma strftime_HM_length now : time_of_day now -> length (strftime_HM now) = 5%nat.
Proof.
  intros [Hh Hm]. unfold strftime_HM.
  rewrite !length_app, !two_digits_length by lia. reflexivity.
Qed.

Lemma speak_text_silent_without_voice text male tr :
  Tts.voices h = [] ->
  exists tr' r, Tts.speak_text h text male tr = (tr ++ tr', Ok r)
                /\ Forall (λ e, is_speech e = false) tr'.
Proof.
  intros V. unfold Tts.speak_text. destruct (falsy text).
  { exists [], None. rewrite app_nil_r. split; [reflexivity|constructor]. }
  rewrite V. unfold try_m, Tts.call, mbind, M_bind, mret, M_ret.
  repeat step_call h; rewrite <- ?app_assoc; cbn [app];
    eexists _, _; (split; [reflexivity|repeat constructor]).
Qed.

(** Whatever the speech engine does, [announce_task] marks the task. *)
Lemma announce_task_marks task db tr :
  exists tr',
    announce_task h env task db tr
    = (tr ++ tr', Ok (update_last_run env (row_id task) db))
    /\ (Tts.voices h = [] -> Forall (λ e, is_speech e = false) tr').
Proof.
  unfold announce_task, try_m, mbind, M_bind.
  destruct (speak_text_trace h
              (lit "Excuse me, I have a reminder for you. " ++ row_message task)
              true tr) as (tr' & r & E & _).
  exists tr'. rewrite E. split; [reflexivity|].
  intros V.
  destruct (speak_text_silent_without_voice
              (lit "Excuse me, I have a reminder for you. " ++ row_message task)
              true tr V) as (tr2 & r2 & E2 & F).
  rewrite E in E2. injection E2 as E2 _. apply app_inv_head in E2. subst. exact F.
Qed.

Lemma check_loop_marks current_time tasks : forall db tr,
  exists tr',
    check_loop h env current_time tasks db tr
    = (tr ++ tr',
       Ok (foldl (λ d r, update_last_run env (row_id r) d) db
             (filter (λ r, due current_time r = true) tasks)))
    /\ (Tts.voices h = [] -> Forall (λ e, is_speech e = false) tr')
    /\ (Forall (λ r, due current_time r = false) tasks -> tr' = []).
Proof.
  induction tasks as [|task tasks IH]; intros db tr.
  - exists []. rewrite app_nil_r. repeat split; constructor.
  - cbn [check_loop]. unfold mbind at 1, M_bind at 1.
    destruct (due current_time task) eqn:D.
    + rewrite filter_cons_True by exact D. cbn [foldl].
      pose proof D as D'. unfold due in D'. apply andb_true_iff in D' as [Et Ed].
      rewrite Et, Ed.
      destruct (announce_task_marks task db tr) as (t1 & -> & F1).
      destruct (IH (update_last_run env (row_id task) db) (tr ++ t1))
        as (t2 & -> & F2 & _).
      exists (t1 ++ t2). rewrite app_assoc. split; [reflexivity|]. split.
      * intros V. apply Forall_app. split; [apply F1|apply F2]; exact V.
      * intros N. inversion N as [|? ? N0 _]; subst. congruence.
    + rewrite filter_cons_False by (rewrite D; discriminate).
      assert (S : (if eqb (row_time task) current_time
                   then if row_repeat_daily task || never_run task
                        then announce_task h env task db
                        else mret db
                   else mret db) = mret db).
      { unfold due in D. destruct (eqb _ _); [|reflexivity].
        destruct (_ || _); [discriminate D|reflexivity]. }
      rewrite S. cbn [mret M_ret].
      destruct (IH db tr) as (t2 & E & F2 & Z2).
      exists t2. split; [exact E|]. split; [exact F2|].
      intros N. inversion N; subst. apply Z2. assumption.
Qed.

Lemma filter_none_due current_time (tasks : list Row) :
  Forall (λ r, due current_time r = false) tasks ->
  filter (λ r, due current_time r = true) tasks = [].
Proof.
  induction 1 as [|r tasks Hr _ IH]; [reflexivity|].
  rewrite filter_cons_False by (rewrite Hr; discriminate). exact IH.
Qed.

Lemma check_tasks_run now db :
  exists tr',
    run (check_tasks h env (Ok now) db)
    = (tr',
       Ok (foldl (λ d r, update_last_run env (row_id r) d) db
             (filter (λ r, due (strftime_HM now) r = true) (fetch_tasks env db))))
    /\ (Tts.voices h = [] -> Forall (λ e, is_speech e = false) tr')
    /\ (Forall (λ r, due (strftime_HM now) r = false) (fetch_tasks env db) ->
        tr' = []).
Proof.
  destruct (check_loop_marks (strftime_HM now) (fetch_tasks env db) db [])
    as (tr' & E & F & Z).
  exists tr'. split; [|split; assumption].
  unfold run, check_tasks, try_m, lift, mbind, M_bind. rewrite E. reflexivity.
Qed.

Lemma rows_after_marks (R : db_raises env = false) l : forall db,
  rows (foldl (λ d r, update_last_run env (row_id r) d) db l)
  = map (λ t, if bool_decide (task_id t ∈ map row_id l) then marked env t else t)
      (rows db).
Proof.
  induction l as [|r l IH]; intros db.
  - cbn [foldl map]. symmetry. rewrite <- (map_id (rows db)) at 2.
    apply map_ext. intros t. rewrite bool_decide_eq_false_2; [reflexivity|].
    apply not_elem_of_nil.
  - cbn [foldl]. rewrite IH. unfold update_last_run at 1. rewrite R. cbn [rows].
    rewrite map_map. apply map_ext. intros t. cbn [map].
    destruct (Z.eqb_spec (task_id t) (row_id r)) as [E|E].
    + fold (marked env t).
      rewrite (bool_decide_eq_true_2 (task_id t ∈ row_id r :: map row_id l))
        by (rewrite E; left).
      destruct (bool_decide _); reflexivity.
    + destruct (decide (task_id t ∈ map row_id l)) as [I|I].
      * rewrite !bool_decide_eq_true_2; [reflexivity|right; exact I|exact I].
      * rewrite !bool_decide_eq_false_2; [reflexivity| |exact I].
        intros H. apply elem_of_cons in H as [H|H]; congruence.
Qed.

(** X21.  When the database does not raise, [check_tasks] marks as run
    every fetched task that is due at the minute of the clock, whether
    it could be spoken or not: every active row of the table whose time
    is the clock text, and that repeats or has never run, has its
    [last_run] set afterwards; on a machine with no voice installed
    nothing is spoken and the due tasks are marked all the same. *)
Theorem check_tasks_marks_due (now : Calendar.datetime) (db : Db) :
  db_raises env = false ->
  exists db',
    (run (check_tasks h env (Ok now) db)).2 = Ok db'
    /\ db' = foldl (λ d r, update_last_run env (row_id r) d) db
               (filter (λ r, due (strftime_HM now) r = true) (fetch_tasks env db))
    /\ (forall t, In t (rows db) -> is_active t = true ->
                  due (strftime_HM now) (select t) = true ->
                  In (marked env t) (rows db'))
    /\ (Tts.voices h = [] ->
        Forall (λ e, is_speech e = false) (run (check_tasks h env (Ok now) db)).1).
Proof.
  intros R.
  destruct (check_tasks_run now db) as (tr' & -> & F & _).
  eexists. split; [reflexivity|]. split; [reflexivity|]. split; [|exact F].
  intros t Ht Ha D. rewrite (rows_after_marks R).
  apply in_map_iff. exists t. split; [|exact Ht].
  rewrite bool_decide_eq_true_2; [reflexivity|].
  apply list_elem_of_fmap. exists (select t). split; [reflexivity|].
  apply list_elem_of_filter. split; [exact D|].
  apply list_elem_of_In, (In_fetch_tasks env db _ R). exists t. auto.
Qed.

Lemma due_time_padded now r :
  time_of_day now -> due (strftime_HM now) r = true ->
  length (row_time r) = 5%nat.
Proof.
  intros Hnow D. unfold due, eqb in D. apply andb_true_iff in D as [E _].
  apply bool_decide_eq_true_1 in E. rewrite E. apply strftime_HM_length, Hnow.
Qed.

(** The loop passes over the rows that are not due. *)
Lemma check_loop_skips current_time (P : Row -> Prop) `{!forall r, Decision (P r)}
    (tasks : list Row) :
  (forall r, due current_time r = true -> P r) ->
  forall db tr,
    check_loop h env current_time tasks db tr
    = check_loop h env current_time (filter P tasks) db tr.
Proof.
  intros HP. induction tasks as [|task tasks IH]; intros db tr; [reflexivity|].
  destruct (decide (P task)) as [Y|N].
  - rewrite filter_cons_True by exact Y. cbn [check_loop].
    unfold mbind, M_bind.
    destruct ((if eqb (row_time task) current_time
               then if row_repeat_daily task || never_run task
                    then announce_task h env task db
                    else mret db
               else mret db) tr) as [tr1 [db1|]]; [apply IH|reflexivity].
  - rewrite filter_cons_False by exact N. cbn [check_loop].
    assert (D : due current_time task = false).
    { destruct (due current_time task) eqn:D; [|reflexivity].
      exfalso. apply N, HP, D. }
    assert (S : (if eqb (row_time task) current_time
                 then if row_repeat_daily task || never_run task
                      then announce_task h env task db
                      else mret db
                 else mret db) = mret db).
    { unfold due in D. destruct (eqb _ _); [|reflexivity].
      destruct (_ || _); [discriminate D|reflexivity]. }
    rewrite S. unfold mbind, M_bind, mret, M_ret. apply IH.
Qed.

(** Marking other rows leaves a row as it is. *)
Lemma marks_keep t l : forall db,
  In t (rows db) ->
  Forall (λ r, row_id r <> task_id t) l ->
  In t (rows (foldl (λ d r, update_last_run env (row_id r) d) db l)).
Proof.
  induction l as [|r l IH]; intros db Ht Hl; [exact Ht|].
  inversion Hl as [|? ? Hr Hl']; subst. cbn [foldl]. apply IH; [|exact Hl'].
  unfold update_last_run. destruct (db_raises env); [exact Ht|]. cbn [rows].
  apply in_map_iff. exists t. split; [|exact Ht].
  destruct (Z.eqb_spec (task_id t) (row_id r)) as [E|E]; [|reflexivity].
  exfalso. apply Hr. symmetry. exact E.
Qed.

Lemma same_id_same_task (l : list Task) a b :
  NoDup (map task_id l) -> In a l -> In b l -> task_id a = task_id b -> a = b.
Proof.
  induction l as [|x l IH]; [intros _ []|].
  cbn [map]. intros N Ha Hb E. apply NoDup_cons in N as [Nx N].
  destruct Ha as [->|Ha], Hb as [->|Hb].
  - reflexivity.
  - exfalso. apply Nx. rewrite E. apply list_elem_of_In, in_map, Hb.
  - exfalso. apply Nx. rewrite <- E. apply list_elem_of_In, in_map, Ha.
  - apply IH; assumption.
Qed.

(** X22.  A task whose time text is not five characters long is never
    announced, whatever else the table holds: at a time of day the
    clock text [%H:%M] has five characters, and the two texts are
    compared as they are.  [check_tasks] does what its loop does over
    the fetched rows with a time of five characters; a row of the table
    with another length is in the table afterwards as it was, not
    marked as run (the ids of the table being distinct); and when no
    row has five characters nothing is done at all.  [add_task] accepts
    such times, "7:30" for one. *)
Theorem unpadded_time_never_announced (now : Calendar.datetime) (db : Db) :
  time_of_day now ->
  run (check_tasks h env (Ok now) db)
  = run (check_loop h env (strftime_HM now)
           (filter (λ r, length (row_time r) = 5%nat) (fetch_tasks env db)) db)
  /\ (NoDup (map task_id (rows db)) ->
      forall t, In t (rows db) -> length (task_time t) <> 5%nat ->
                exists db',
                  (run (check_tasks h env (Ok now) db)).2 = Ok db'
                  /\ In t (rows db'))
  /\ (Forall (λ t, length (task_time t) <> 5%nat) (rows db) ->
      run (check_tasks h env (Ok now) db) = ([], Ok db)).
Proof.
  intros Hnow. split; [|split].
  - destruct (check_loop_marks (strftime_HM now) (fetch_tasks env db) db [])
      as (tr' & E & _).
    unfold run.
    rewrite <- (check_loop_skips (strftime_HM now)
                  (λ r, length (row_time r) = 5%nat) (fetch_tasks env db)
                  (λ r D, due_time_padded now r Hnow D) db []).
    unfold check_tasks, try_m, lift, mbind, M_bind. rewrite E. reflexivity.
  - intros N t Ht Hlen.
    destruct (check_tasks_run now db) as (tr' & -> & _).
    eexists. split; [reflexivity|]. apply marks_keep; [exact Ht|].
    apply Forall_forall. intros r Hr E.
    apply list_elem_of_filter in Hr as [D Hr].
    destruct (db_raises env) eqn:R.
    { rewrite (fetch_tasks_down env db R) in Hr. inversion Hr. }
    apply list_elem_of_In, (In_fetch_tasks env db r R) in Hr as (t' & Ht' & _ & ->).
    cbn [select row_id] in E.
    pose proof (same_id_same_task (rows db) t' t N Ht' Ht E) as ->.
    apply Hlen. exact (due_time_padded now (select t) Hnow D).
  - intros Hrows.
    assert (N : Forall (λ r, due (strftime_HM now) r = false) (fetch_tasks env db)).
    { destruct (db_raises env) eqn:R.
      - rewrite (fetch_tasks_down env db R). constructor.
      - apply Forall_forall. intros r Hr. apply list_elem_of_In in Hr.
        apply (In_fetch_tasks env db r R) in Hr as (t & Ht & _ & ->).
        rewrite Forall_forall in Hrows. apply list_elem_of_In in Ht.
        specialize (Hrows t Ht).
        destruct (due (strftime_HM now) (select t)) eqn:D; [|reflexivity].
        exfalso. apply Hrows. exact (due_time_padded now (select t) Hnow D). }
    destruct (check_tasks_run now db) as (tr' & -> & _ & Z).
    rewrite (Z N), (filter_none_due _ _ N). reflexivity.
Qed.

(** X23.  A task that does not repeat is announced at most once: after
    [check_tasks] has run at some minute, no active task that does not
    repeat is due at that minute any more - either it was not due, or it
    has just been marked as run. *)
Theorem one_shot_announced_once (now : Calendar.datetime) (db : Db) :
  db_raises env = false ->
  current_timestamp env <> [] ->
  exists db',
    (run (check_tasks h env (Ok now) db)).2 = Ok db'
    /\ forall r, In r (fetch_tasks env db') ->
                 row_repeat_daily r = false ->
                 due (strftime_HM now) r = false.
Proof.
  intros R Hts.
  destruct (check_tasks_run now db) as (tr' & E & _). rewrite E. cbn [snd].
  eexists. split; [reflexivity|].
  intros r Hr Hrep.
  apply (In_fetch_tasks env _ r R) in Hr as (t' & Ht' & Ha & ->).
  rewrite (rows_after_marks R) in Ht'.
  apply in_map_iff in Ht' as (t & <- & Ht).
  unfold due. cbn [select row_time row_repeat_daily] in *.
  destruct (bool_decide _) eqn:B.
  - rewrite Hrep. unfold never_run. cbn [select row_last_run marked last_run].
    destruct (current_timestamp env); [congruence|]. apply andb_false_r.
  - apply bool_decide_eq_false_1 in B.
    destruct (due (strftime_HM now) (select t)) eqn:D; [|exact D].
    exfalso. apply B. apply list_elem_of_fmap. exists (select t).
    split; [reflexivity|]. apply list_elem_of_filter. split; [exact D|].
    apply list_elem_of_In, (In_fetch_tasks env db _ R).
    exists t. auto.
Qed.

End Reminders.

Lemma check_tasks_marks_due_witness :
  Tasks.db_raises (Tasks.mkStore false (lit "2026-11-04 07:30:00")) = false
  /\ exists db',
       (run (Scheduler.check_tasks host_no_voice
               (Tasks.mkStore false (lit "2026-11-04 07:30:00"))
               (Ok (Calendar.mkDatetime 2026 11 4 7 30))
               (Tasks.mkDb [Tasks.mkTask 1 (lit "07:30") (lit "Call the doctor") true
                              (lit "2026-11-04 07:00:00") None false] 1))).2
       = Ok db'
       /\ In (Tasks.mkTask 1 (lit "07:30") (lit "Call the doctor") true
                (lit "2026-11-04 07:00:00") (Some (lit "2026-11-04 07:30:00")) false)
            (Tasks.rows db').
Proof.
  split; [reflexivity|].
  destruct (check_tasks_marks_due host_no_voice
              (Tasks.mkStore false (lit "2026-11-04 07:30:00"))
              (Calendar.mkDatetime 2026 11 4 7 30)
              (Tasks.mkDb [Tasks.mkTask 1 (lit "07:30") (lit "Call the doctor") true
                             (lit "2026-11-04 07:00:00") None false] 1)
              eq_refl) as (db' & E & _ & K & _).
  exists db'. split; [exact E|].
  apply (K (Tasks.mkTask 1 (lit "07:30") (lit "Call the doctor") true
              (lit "2026-11-04 07:00:00") None false));
    [left; reflexivity|reflexivity|vm_compute; reflexivity].
Defined.

Lemma unpadded_time_never_announced_witness :
  time_of_day (Calendar.mkDatetime 2026 11 4 7 30)
  /\ Tasks.add_task (Tasks.mkStore false (lit "2026-11-04 07:00:00"))
       Tasks.Connected (lit "7:30") (lit "Take your medicine") true
       (Tasks.mkDb [Tasks.mkTask 1 (lit "07:30") (lit "Call the doctor") true
                      (lit "2026-11-04 06:00:00") None true] 1)
     = (Tasks.mkDb [Tasks.mkTask 1 (lit "07:30") (lit "Call the doctor") true
                      (lit "2026-11-04 06:00:00") None true;
                    Tasks.mkTask 2 (lit "7:30") (lit "Take your medicine") true
                      (lit "2026-11-04 07:00:00") None true] 2, Ok true)
  /\ exists db',
       (run (Scheduler.check_tasks host_example
               (Tasks.mkStore false (lit "2026-11-04 07:30:00"))
               (Ok (Calendar.mkDatetime 2026 11 4 7 30))
               (Tasks.mkDb [Tasks.mkTask 1 (lit "07:30") (lit "Call the doctor") true
                              (lit "2026-11-04 06:00:00") None true;
                            Tasks.mkTask 2 (lit "7:30") (lit "Take your medicine") true
                              (lit "2026-11-04 07:00:00") None true] 2))).2
       = Ok db'
       /\ In (Tasks.mkTask 2 (lit "7:30") (lit "Take your medicine") true
                (lit "2026-11-04 07:00:00") None true)
            (Tasks.rows db').
Proof.
  assert (T : time_of_day (Calendar.mkDatetime 2026 11 4 7 30))
    by (unfold time_of_day; simpl; lia).
  split; [exact T|]. split; [reflexivity|].
  apply (proj1 (proj2 (unpadded_time_never_announced host_example
                         (Tasks.mkStore false (lit "2026-11-04 07:30:00")) _ _ T))).
  - cbn. repeat constructor; rewrite ?elem_of_cons, ?elem_of_nil; intuition lia.
  - right. left. reflexivity.
  - cbn. lia.
Defined.

(** At 07:30, with the reminders "07:30" and "7:30" in the table: the
    first is spoken and marked as run, the second is passed over. *)
Example padded_and_unpadded :
  run (Scheduler.check_tasks host_example
         (Tasks.mkStore false (lit "2026-11-04 07:30:00"))
         (Ok (Calendar.mkDatetime 2026 11 4 7 30))
         (Tasks.mkDb [Tasks.mkTask 1 (lit "07:30") (lit "Call the doctor") true
                        (lit "2026-11-04 06:00:00") None true;
                      Tasks.mkTask 2 (lit "7:30") (lit "Take your medicine") true
                        (lit "2026-11-04 07:00:00") None true] 2))
  = ([EngineInit; SetRate 150; SetVolume 0.9%float; GetVoices;
      SetVoice (lit "voice.hazel");
      Say (lit "Excuse me, I have a reminder for you. Call the doctor");
      RunAndWait],
     Ok (Tasks.mkDb [Tasks.mkTask 1 (lit "07:30") (lit "Call the doctor") true
                       (lit "2026-11-04 06:00:00")
                       (Some (lit "2026-11-04 07:30:00")) true;
                     Tasks.mkTask 2 (lit "7:30") (lit "Take your medicine") true
                       (lit "2026-11-04 07:00:00") None true] 2)).
Proof. vm_compute. reflexivity. Qed.

Lemma one_shot_announced_once_witness :
  Tasks.db_raises (Tasks.mkStore false (lit "2026-11-04 07:30:00")) = false
  /\ Tasks.current_timestamp (Tasks.mkStore false (lit "2026-11-04 07:30:00")) <> []
  /\ exists db',
       (run (Scheduler.check_tasks host_no_voice
               (Tasks.mkStore false (lit "2026-11-04 07:30:00"))
               (Ok (Calendar.mkDatetime 2026 11 4 7 30))
               (Tasks.mkDb [Tasks.mkTask 1 (lit "07:30") (lit "Call the doctor") true
                              (lit "2026-11-04 07:00:00") None false] 1))).2
       = Ok db'
       /\ forall r, In r (Tasks.fetch_tasks
                            (Tasks.mkStore false (lit "2026-11-04 07:30:00")) db') ->
                    Tasks.row_repeat_daily r = false ->
                    due (Scheduler.strftime_HM (Calendar.mkDatetime 2026 11 4 7 30)) r
                    = false.
Proof.
  assert (N : Tasks.current_timestamp
                (Tasks.mkStore false (lit "2026-11-04 07:30:00")) <> [])
    by (vm_compute; discriminate).
  split; [reflexivity|]. split; [exact N|].
  exact (one_shot_announced_once host_no_voice
           (Tasks.mkStore false (lit "2026-11-04 07:30:00"))
           (Calendar.mkDatetime 2026 11 4 7 30) _ eq_refl N).
Defined.

(** The reminder of 07:30, on a machine with no voice: nothing is
    spoken, and the task is marked as run. *)
Example reminder_lost_without_voice :
  run (Scheduler.check_tasks host_no_voice
         (Tasks.mkStore false (lit "2026-11-04 07:30:00"))
         (Ok (Calendar.mkDatetime 2026 11 4 7 30))
         (Tasks.mkDb [Tasks.mkTask 1 (lit "07:30") (lit "Call the doctor") true
                        (lit "2026-11-04 07:00:00") None false] 1))
  = ([EngineInit; SetRate 150; SetVolume 0.9%float; GetVoices],
     Ok (Tasks.mkDb [Tasks.mkTask 1 (lit "07:30") (lit "Call the doctor") true
                       (lit "2026-11-04 07:00:00")
                       (Some (lit "2026-11-04 07:30:00")) false] 1)).
Proof. vm_compute. reflexivity. Qed.

(** ** core/voice_input.py: what the recognizer hands on *)

Example read_output_stamped :
  VoiceInput.read_output
    (lit "whisper_init: loading model" ++ newline
     ++ lit "[00:00:00.000 --> 00:00:02.000]   Hey Sathi," ++ newline
     ++ lit "[00:00:02.000 --> 00:00:04.000]   what time is it?" ++ newline)
  = Some (lit "Hey Sathi, what time is it?")
  /\ VoiceInput.read_output (lit "main: processing" ++ newline ++ lit "  hello  ")
     = Some (lit "hello")
  /\ VoiceInput.read_output (lit "whisper_init: loading model" ++ newline) = None.
Proof. repeat split; vm_compute; reflexivity. Qed.

(** X24.  What [transcribe_audio] returns is [None] or a text that is
    not empty and has no white space at either end, whatever the
    recognizer printed; it is [None] when the executable or the model
    file is missing, when the run raises or when its return code is not
    0.  So the callers' test [if not transcription] tells "nothing
    heard" from a text worth scoring. *)
Theorem transcribe_audio_result (wh : VoiceInput.Whisper) :
  (forall text, VoiceInput.transcribe_audio wh = Some text ->
                text <> [] /\ strip text = text
                /\ VoiceInput.exe_exists wh = true
                /\ VoiceInput.model_exists wh = true
                /\ exists stdout, VoiceInput.completed wh = Ok (0, stdout))
  /\ (VoiceInput.exe_exists wh = false \/ VoiceInput.model_exists wh = false
      \/ VoiceInput.completed wh = Raise
      \/ (exists code stdout, VoiceInput.completed wh = Ok (code, stdout) /\ code <> 0)
      -> VoiceInput.transcribe_audio wh = None).
Proof.
  unfold VoiceInput.transcribe_audio. split.
  - intros text.
    destruct (VoiceInput.exe_exists wh); [|discriminate].
    destruct (VoiceInput.model_exists wh); [|discriminate].
    destruct (VoiceInput.completed wh) as [[code stdout]|]; [|discriminate].
    cbn [negb]. destruct (Z.eqb_spec code 0) as [->|]; [|discriminate].
    cbn [negb]. unfold VoiceInput.read_output.
    set (t := if falsy (strip (VoiceInput.stamped_text _ _)) then _ else _).
    destruct (strip t) as [|c r] eqn:E; [discriminate|].
    cbn [falsy]. intros [= <-]. split; [discriminate|].
    split; [rewrite <- E; apply strip_idem|]. eauto.
  - intros [H|[H|[H|(code & stdout & H & N)]]].
    + rewrite H. reflexivity.
    + rewrite H. destruct (VoiceInput.exe_exists wh); reflexivity.
    + rewrite H. destruct (VoiceInput.exe_exists wh), (VoiceInput.model_exists wh);
        reflexivity.
    + rewrite H. destruct (VoiceInput.exe_exists wh), (VoiceInput.model_exists wh);
        try reflexivity.
      cbn [negb]. destruct (Z.eqb_spec code 0); [congruence|reflexivity].
Qed.

(** ** core/main.py and core/voice_input.py: what can leave an interaction *)

(** The directory of the recording is missing and cannot be made: the
    interaction ends with the exception, before the microphone is
    used. *)
Example sathi_interaction_no_directory :
  run (sathi_interaction_from world_model_up
         (VoiceInput.mkMicrophone false Raise (Ok ()) (Ok ()))
         (Some (lit "what time is it")))
  = ([], Raise).
Proof. reflexivity. Qed.

